(** * ChatArea: the conversation-session synchronization engine

    A shallow embedding of [src/frontend/src/components/ChatArea.jsx]:
    the two handlers [handleSendMessage] and [handleSubmitEdit], the
    stream callbacks they install, and the session context and the
    services they call.

    The handlers are React event handlers.  Each one closes over the
    values of the render it was created in (the current session, the
    loading flag, the dispatch mode, ...) and changes the component
    state only through the setters.  The embedding keeps that
    distinction: a handler reads a [closure] and transforms a [world]
    in a small state-and-exception monad.

    The session context and the two services are not among the
    sources.  The three functions of the context that the handlers call
    are modelled from the specification; the services are a parameter
    ([services]), and every call to a collaborator is recorded in the
    world, so that what the handlers do can be stated on the calls they
    make as well as on the session that results. *)

From Stdlib Require Import ZArith NArith Ascii String.
From stdpp Require Import base option list strings gmap pretty.

Local Open Scope N_scope.
Local Open Scope list_scope.

(** ** JavaScript values *)

(** A JavaScript string is a sequence of UTF-16 code units. *)
Abbreviation jsstring := (list N).

(** A string literal of the source, one code unit per character. *)
Definition lit (s : string) : jsstring :=
  (λ a, N_of_ascii a) <$> list_ascii_of_string s.

(** The double quote character, which the template literals of the
    source contain. *)
Definition dquote : jsstring := [34].

(** Number-to-string conversion of a non-negative integer, as done by a
    template literal. *)
Definition num_to_string (n : nat) : jsstring := lit (pretty n).

(** ECMAScript [WhiteSpace] and [LineTerminator] code units: what
    [String.prototype.trim] removes. *)
Definition is_whitespace (c : N) : bool :=
  (c =? 9) || (c =? 10) || (c =? 11) || (c =? 12) || (c =? 13) ||
  (c =? 32) || (c =? 160) || (c =? 5760) ||
  ((8192 <=? c) && (c <=? 8202)) ||
  (c =? 8232) || (c =? 8233) || (c =? 8239) || (c =? 8287) ||
  (c =? 12288) || (c =? 65279).

Fixpoint trimStart (s : jsstring) : jsstring :=
  match s with
  | c :: s' => if is_whitespace c then trimStart s' else s
  | [] => []
  end.

Definition trimEnd (s : jsstring) : jsstring := reverse (trimStart (reverse s)).

(** [s.trim()] *)
Definition trim (s : jsstring) : jsstring := trimEnd (trimStart s).

(** The primitive values that occur as identifiers, model names and
    message fields. *)
Inductive prim :=
| PUndefined
| PNull
| PBool (b : bool)
| PNum (n : Z)
| PStr (s : jsstring).

Global Instance prim_eq_dec : EqDecision prim.
Proof. solve_decision. Defined.

(** [ToBoolean]: what [if (v)] and [!v] test. *)
Definition truthy (v : prim) : bool :=
  match v with
  | PUndefined | PNull => false
  | PBool b => b
  | PNum n => negb (n =? 0)%Z
  | PStr s => negb (bool_decide (s = []))
  end.

(** [a === b] on these primitives. *)
Definition strict_eq (a b : prim) : bool := bool_decide (a = b).

(** ** Data model *)

(** One question/answer pair of a message's edit history. *)
Module Edit.
Record t := mk {
  edit_id : prim;
  model_name : prim;
  timestamp : prim;
  question : prim;
  answer : prim;
  (** any further property of the object *)
  rest : gmap string prim
}.
End Edit.

(** A message object.  [edits] is [None] when the property is absent
    (the legacy question/answer format) and [Some es] when it holds an
    array; an array is truthy even when empty. *)
Module Message.
Record t := mk {
  id : prim;
  edits : option (list Edit.t);
  question : prim;
  answer : prim;
  model_name : prim;
  (** any further property of the object *)
  rest : gmap string prim
}.

(** [{...m, edits: es}] *)
Definition with_edits (m : t) (es : list Edit.t) : t :=
  mk (id m) (Some es) (question m) (answer m) (model_name m) (rest m).

(** [{...m, question: q}] *)
Definition with_question (m : t) (q : prim) : t :=
  mk (id m) (edits m) q (answer m) (model_name m) (rest m).

(** [{...m, answer: a, model_name: mn}] *)
Definition with_answer (m : t) (a mn : prim) : t :=
  mk (id m) (edits m) (question m) a mn (rest m).
End Message.

(** The session (thread) the context exposes as [currentSession]. *)
Module Session.
Record t := mk {
  id : prim;
  isTemporary : bool;
  modelName : prim;
  messages : list Message.t
}.
End Session.

(** What [apiService.createThread] resolves to. *)
Record newThread := { thread_id : prim }.

(** ** Component state, closures and the world *)

(** The [useState] cells of the component that the two handlers read or
    write. *)
Record component := mkComponent {
  isLoading : bool;
  streamingMessage : jsstring;
  editingMessageId : prim;
  editingMessageText : jsstring;
  apiMode : bool;
  selectedModel : jsstring;
  useContext : bool;
  uploadedFiles : list prim
}.

(** Calls to the collaborators, recorded in the order they are made. *)
Inductive call :=
| createThread_call
| createMessage_call (threadId : prim) (question answer model : jsstring)
| getConversation_call (threadId : prim)
| transformConversation_call
| createMessageEdit_call (messageId : prim) (question answer model : jsstring)
| sendMessage_call (question model : jsstring) (useCtx : bool) (threadId : prim)
| addMessage_call (text : jsstring) (isUser : bool) (model : prim)
| convertTemporarySession_call (oldId : prim) (thread : newThread)
| updateSessionModel_call (sessionId : prim) (model : jsstring) (msgs : list Message.t).

(** A call together with whether it returned ([true]) or threw. *)
Record event := mkEvent { ev_call : call; ev_ok : bool }.

Record world := mkWorld {
  ui : component;
  currentSession : option Session.t;
  calls : list event
}.

(** The values a handler captured from the render it belongs to.  The
    callbacks of an exchange run later, but they are closures of the
    same render: they see these values, not the state of the time they
    run.  In particular the captured session is the one from before the
    handler added the user's message. *)
Record closure := mkClosure {
  c_currentSession : option Session.t;
  c_isLoading : bool;
  c_apiMode : bool;
  c_selectedModel : jsstring;
  c_useContext : bool;
  c_uploadedFiles : list prim;
  c_editingMessageId : prim
}.

(** The closure of the handlers created by rendering in world [w]. *)
Definition render (w : world) : closure :=
  {| c_currentSession := currentSession w;
     c_isLoading := isLoading (ui w);
     c_apiMode := apiMode (ui w);
     c_selectedModel := selectedModel (ui w);
     c_useContext := useContext (ui w);
     c_uploadedFiles := uploadedFiles (ui w);
     c_editingMessageId := editingMessageId (ui w) |}.

(** ** The effect monad *)

Inductive error := TypeError | InvalidState | ServiceError.

Inductive outcome (A : Type) :=
| Returned (a : A)
| Thrown (e : error).
Arguments Returned {A} a.
Arguments Thrown {A} e.

Definition M (A : Type) : Type := world → outcome A * world.

Global Instance M_ret : MRet M := λ A a w, (Returned a, w).

Global Instance M_bind : MBind M := λ A B f m w,
  match m w with
  | (Returned a, w') => f a w'
  | (Thrown e, w') => (Thrown e, w')
  end.

Definition throw {A} (e : error) : M A := λ w, (Thrown e, w).

(** [try { m } catch (error) { h }] *)
Definition try_catch {A} (m : M A) (h : error → M A) : M A :=
  λ w, match m w with
       | (Returned a, w') => (Returned a, w')
       | (Thrown e, w') => h e w'
       end.

(** A call to an async function whose promise is not awaited: a
    rejection does not reach the caller. *)
Definition detached (m : M unit) : M unit :=
  λ w, (Returned tt, (m w).2).

Definition modify_ui (f : component → component) : M unit :=
  λ w, (Returned tt, mkWorld (f (ui w)) (currentSession w) (calls w)).

Definition record (c : call) (ok : bool) : M unit :=
  λ w, (Returned tt, mkWorld (ui w) (currentSession w) (calls w ++ [mkEvent c ok])).

(** The state setters. *)
Definition setIsLoading (b : bool) : M unit :=
  modify_ui (λ u, mkComponent b (streamingMessage u) (editingMessageId u)
    (editingMessageText u) (apiMode u) (selectedModel u) (useContext u) (uploadedFiles u)).

Definition updateStreamingMessage (f : jsstring → jsstring) : M unit :=
  modify_ui (λ u, mkComponent (isLoading u) (f (streamingMessage u)) (editingMessageId u)
    (editingMessageText u) (apiMode u) (selectedModel u) (useContext u) (uploadedFiles u)).

Definition setStreamingMessage (s : jsstring) : M unit :=
  updateStreamingMessage (λ _, s).

Definition setEditingMessageId (v : prim) : M unit :=
  modify_ui (λ u, mkComponent (isLoading u) (streamingMessage u) v
    (editingMessageText u) (apiMode u) (selectedModel u) (useContext u) (uploadedFiles u)).

Definition setEditingMessageText (s : jsstring) : M unit :=
  modify_ui (λ u, mkComponent (isLoading u) (streamingMessage u) (editingMessageId u)
    s (apiMode u) (selectedModel u) (useContext u) (uploadedFiles u)).

(** ** The collaborators *)

(** The result of the stream simulator: the chunks it passes to
    [onChunk], in the order it emits them, and then either [onComplete]
    with the full response or [onError]. *)
Inductive stream_end :=
| Complete (fullResponse : jsstring)
| Failed.

Record stream := mkStream { chunks : list jsstring; ending : stream_end }.

(** What the code receives from outside the component.  A service call
    that rejects is [None].  The services are functions of their
    arguments: each is called at most once in an exchange.

    - [createThread], [createMessage], [getConversation],
      [transformConversation], [createMessageEdit]: [apiService];
    - [sendMessage]: the run of [mockApiService.sendMessage] for the
      given question, model, context flag and thread id;
    - [newMessage]: the message object that the session context builds
      in [addMessage] for the given session, text, [isUser] flag and
      model name;
    - [now]: the value of [new Date().toISOString()]. *)
Record services (ConversationDTO : Type) := mkServices {
  createThread : option newThread;
  createMessage : prim → jsstring → jsstring → jsstring → option unit;
  getConversation : prim → option ConversationDTO;
  transformConversation : ConversationDTO → option (list Message.t);
  createMessageEdit : prim → jsstring → jsstring → jsstring → option unit;
  sendMessage : jsstring → jsstring → bool → prim → stream;
  newMessage : Session.t → jsstring → bool → prim → Message.t;
  now : jsstring
}.
Arguments createThread {_} _.
Arguments createMessage {_} _ _ _ _ _.
Arguments getConversation {_} _ _.
Arguments transformConversation {_} _ _.
Arguments createMessageEdit {_} _ _ _ _ _.
Arguments sendMessage {_} _ _ _ _ _.
Arguments newMessage {_} _ _ _ _ _.
Arguments now {_} _.

(** [await service(...)]: the call is recorded, and a rejection is
    thrown at the await. *)
Definition await {A} (c : call) (r : option A) : M A :=
  match r with
  | Some a => record c true;; mret a
  | None => record c false;; throw ServiceError
  end.

(** The text both failure paths of [handleSendMessage] add. *)
Definition fallbackMessage : jsstring :=
  lit "I'm sorry, I encountered an error processing your request.".

(** [edits[edits.length - 1]]; [None] is [undefined]. *)
Definition latestEdit (es : list Edit.t) : option Edit.t := es !! (length es - 1)%nat.

Section ChatArea.
Context {ConversationDTO : Type} (env : services ConversationDTO).

(** *** The session context *)

(** Modelled from the spec: [addMessage] belongs to SessionContext,
    which is not among the sources.  Section 4.1, [appendMessage]:
    appends to the thread's messages, preserving order, and fails with
    [InvalidState] if the thread is undefined. *)
Definition addMessage (text : jsstring) (isUser : bool) (model : prim) : M unit :=
  λ w, match currentSession w with
       | Some s =>
           (Returned tt,
            mkWorld (ui w)
              (Some (Session.mk (Session.id s) (Session.isTemporary s) (Session.modelName s)
                       (Session.messages s ++ [newMessage env s text isUser model])))
              (calls w ++ [mkEvent (addMessage_call text isUser model) true]))
       | None =>
           (Thrown InvalidState,
            mkWorld (ui w) None
              (calls w ++ [mkEvent (addMessage_call text isUser model) false]))
       end.

(** Modelled from the spec: [convertTemporarySession] belongs to
    SessionContext, which is not among the sources.  Section 4.1,
    [ensurePersisted], the part after the backend call: a temporary
    thread gets the backend-assigned id and [temporary = false]; on an
    already persisted thread it is a no-op. *)
Definition convertTemporarySession (oldId : prim) (t : newThread) : M unit :=
  λ w, (Returned tt,
        mkWorld (ui w)
          (match currentSession w with
           | Some s =>
               if strict_eq (Session.id s) oldId && Session.isTemporary s
               then Some (Session.mk (thread_id t) false (Session.modelName s) (Session.messages s))
               else Some s
           | None => None
           end)
          (calls w ++ [mkEvent (convertTemporarySession_call oldId t) true])).

(** Modelled from the spec: [updateSessionModel] belongs to
    SessionContext, which is not among the sources.  Section 4.1,
    [setModel] and [replaceMessages]: the model selection of the
    thread is updated and its message list is replaced wholesale. *)
Definition updateSessionModel (sessionId : prim) (model : jsstring)
    (msgs : list Message.t) : M unit :=
  λ w, (Returned tt,
        mkWorld (ui w)
          (match currentSession w with
           | Some s =>
               if strict_eq (Session.id s) sessionId
               then Some (Session.mk (Session.id s) (Session.isTemporary s) (PStr model) msgs)
               else Some s
           | None => None
           end)
          (calls w ++ [mkEvent (updateSessionModel_call sessionId model msgs) true])).

(** Reading a property of [currentSession] in a handler: a
    [TypeError] when the captured session is null. *)
Definition session_of (c : closure) : M Session.t :=
  match c_currentSession c with
  | Some s => mret s
  | None => throw TypeError
  end.

(** *** handleSendMessage *)

(** Line 70. *)
Definition sendResponse (message model : jsstring) : jsstring :=
  lit "This is a response to: " ++ dquote ++ message ++ dquote ++
  lit ". In a real implementation, this would be generated by an LLM model (" ++
  model ++ lit ").".

(** Lines 69-99: the body of the [try] block of the real API mode. *)
Definition sendViaApi (c : closure) (message : jsstring) : M unit :=
  let simulatedResponse := sendResponse message (c_selectedModel c) in
  s ← session_of c;
  threadId ←
    (if Session.isTemporary s then
       thread ← await createThread_call (createThread env);
       convertTemporarySession (Session.id s) thread;;
       mret (thread_id thread)
     else mret (Session.id s));
  await (createMessage_call threadId message simulatedResponse (c_selectedModel c))
        (createMessage env threadId message simulatedResponse (c_selectedModel c));;
  updatedConversation ← await (getConversation_call threadId) (getConversation env threadId);
  transformed ← await transformConversation_call
                  (transformConversation env updatedConversation);
  updateSessionModel threadId (c_selectedModel c) transformed;;
  setIsLoading false;;
  setStreamingMessage [].

(** Lines 100-105 and 166-171: the [catch] block and [onError]. *)
Definition onError (c : closure) : M unit :=
  detached (addMessage fallbackMessage false (PStr (c_selectedModel c)));;
  setIsLoading false;;
  setStreamingMessage [].

(** Lines 113-115. *)
Definition onChunk (chunk : jsstring) : M unit :=
  updateStreamingMessage (λ prev, prev ++ chunk).

(** Lines 128-134 and 261-267: the edit object both mock paths build
    for a message that has [n] edits so far. *)
Definition mockEdit (c : closure) (n : nat) (question : jsstring) (answer : prim) : Edit.t :=
  Edit.mk (PStr (lit "mock_edit_" ++ num_to_string (n + 1)))
    (PStr (c_selectedModel c)) (PStr (now env)) (PStr question) answer ∅.

(** Lines 126-135: the last message with one more edit. *)
Definition appendAnswerEdit (c : closure) (message fullResponse : jsstring)
    (lastMessage : Message.t) (es : list Edit.t) : Message.t :=
  Message.with_edits lastMessage
    (es ++ [mockEdit c (length es) message (PStr fullResponse)]).

(** Lines 117-164.  The index [messages.length - 1] is [-1] for an
    empty list, where the lookup gives [undefined]; so does the lookup
    at the truncated index [0]. *)
Definition onComplete (c : closure) (message fullResponse : jsstring) : M unit :=
  match c_currentSession c with
  | Some s =>
      let lastMessageIndex := (length (Session.messages s) - 1)%nat in
      match Session.messages s !! lastMessageIndex with
      | Some lastMessage =>
          match Message.edits lastMessage with
          | Some es =>
              let updatedMessage := appendAnswerEdit c message fullResponse lastMessage es in
              let updatedMessages := <[lastMessageIndex := updatedMessage]> (Session.messages s) in
              updateSessionModel (Session.id s) (c_selectedModel c) updatedMessages
          | None =>
              if truthy (Message.question lastMessage) then
                let updatedMessage :=
                  Message.with_answer lastMessage (PStr fullResponse) (PStr (c_selectedModel c)) in
                let updatedMessages := <[lastMessageIndex := updatedMessage]> (Session.messages s) in
                updateSessionModel (Session.id s) (c_selectedModel c) updatedMessages
              else
                detached (addMessage fullResponse false (PStr (c_selectedModel c)))
          end
      | None => detached (addMessage fullResponse false (PStr (c_selectedModel c)))
      end
  | None => mret tt
  end;;
  setIsLoading false;;
  setStreamingMessage [].

(** The simulator passing its chunks to [onChunk], in order. *)
Fixpoint deliver (cs : list jsstring) : M unit :=
  match cs with
  | [] => mret tt
  | chunk :: cs' => onChunk chunk;; deliver cs'
  end.

(** The simulator's last callback. *)
Definition finish (c : closure) (message : jsstring) (e : stream_end) : M unit :=
  match e with
  | Complete fullResponse => onComplete c message fullResponse
  | Failed => onError c
  end.

(** [currentSession?.id] *)
Definition optional_id (c : closure) : prim :=
  match c_currentSession c with
  | Some s => Session.id s
  | None => PUndefined
  end.

(** Lines 108-174: the call of [mockApiService.sendMessage] and the
    callbacks it leads to.  The call itself returns at once; the
    callbacks run later, one after the other, and nothing else is
    interleaved with them here.  By its interface the simulator calls
    [onChunk] any number of times and then exactly one of [onComplete]
    and [onError]; a failure is reported through [onError]. *)
Definition sendViaMock (c : closure) (message : jsstring) : M unit :=
  let useCtx := c_useContext c && bool_decide (0 < length (c_uploadedFiles c))%nat in
  let run := sendMessage env message (c_selectedModel c) useCtx (optional_id c) in
  record (sendMessage_call message (c_selectedModel c) useCtx (optional_id c)) true;;
  deliver (chunks run);;
  finish c message (ending run).

(** Lines 59-64. *)
Definition beginExchange (message : jsstring) : M unit :=
  addMessage message true PNull;;
  setIsLoading true;;
  setStreamingMessage [].

(** Lines 56-176. *)
Definition handleSendMessage (c : closure) (message : jsstring) : M unit :=
  if negb (truthy (PStr (trim message))) || c_isLoading c then mret tt
  else
    beginExchange message;;
    if c_apiMode c then try_catch (sendViaApi c message) (λ _, onError c)
    else sendViaMock c message.

(** A send from the handler of the latest render. *)
Definition send (message : jsstring) (w : world) : outcome unit * world :=
  handleSendMessage (render w) message w.

(** *** handleSubmitEdit *)

(** Line 235. *)
Definition editResponse (updatedMessage model : jsstring) : jsstring :=
  lit "This is a response to the edited question: " ++ dquote ++ updatedMessage ++
  dquote ++ lit ". Generated by " ++ model ++ lit ".".

(** [messages.find(msg => msg.id === editingMessageId)] *)
Definition find (editingId : prim) (msgs : list Message.t) : option Message.t :=
  snd <$> list_find (λ msg, Message.id msg = editingId) msgs.

(** [messages.findIndex(msg => msg.id === editingMessageId)], with
    [None] for [-1]. *)
Definition findIndex (editingId : prim) (msgs : list Message.t) : option nat :=
  fst <$> list_find (λ msg, Message.id msg = editingId) msgs.

(** Lines 233-253: the real API mode. *)
Definition editViaApi (c : closure) (s : Session.t) (messageToEdit : Message.t)
    (updatedMessage : jsstring) : M unit :=
  match Message.edits messageToEdit with
  | Some _ =>
      let simulatedResponse := editResponse updatedMessage (c_selectedModel c) in
      await (createMessageEdit_call (Message.id messageToEdit) updatedMessage
               simulatedResponse (c_selectedModel c))
            (createMessageEdit env (Message.id messageToEdit) updatedMessage
               simulatedResponse (c_selectedModel c));;
      updatedConversation ← await (getConversation_call (Session.id s))
                              (getConversation env (Session.id s));
      transformed ← await transformConversation_call
                      (transformConversation env updatedConversation);
      updateSessionModel (Session.id s) (c_selectedModel c) transformed
  | None => mret tt
  end.

(** Lines 256-293: the mock mode.  Reading [answer] of an undefined
    latest edit, or [edits] of an undefined array element, is a
    [TypeError]; spreading an undefined element into an object
    literal gives an object with the listed properties only. *)
Definition editViaMock (c : closure) (s : Session.t) (messageToEdit : Message.t)
    (updatedMessage : jsstring) : M unit :=
  match Message.edits messageToEdit with
  | Some es =>
      latestAnswer ← match latestEdit es with
                     | Some e => mret (Edit.answer e)
                     | None => throw TypeError
                     end;
      let newEdit := mockEdit c (length es) updatedMessage latestAnswer in
      let updatedMessages := Session.messages s in
      match findIndex (c_editingMessageId c) updatedMessages with
      | Some messageIndex =>
          oldEdits ← match updatedMessages !! messageIndex ≫= Message.edits with
                     | Some es' => mret es'
                     | None => throw TypeError
                     end;
          let target := default (Message.mk PUndefined None PUndefined PUndefined PUndefined ∅)
                          (updatedMessages !! messageIndex) in
          updateSessionModel (Session.id s) (c_selectedModel c)
            (<[messageIndex := Message.with_edits target (oldEdits ++ [newEdit])]> updatedMessages)
      | None => mret tt
      end
  | None =>
      let updatedMessages := Session.messages s in
      match findIndex (c_editingMessageId c) updatedMessages with
      | Some messageIndex =>
          let target := default (Message.mk PUndefined None PUndefined PUndefined PUndefined ∅)
                          (updatedMessages !! messageIndex) in
          updateSessionModel (Session.id s) (c_selectedModel c)
            (<[messageIndex := Message.with_question target (PStr updatedMessage)]> updatedMessages)
      | None => mret tt
      end
  end.

(** Lines 220-304. *)
Definition handleSubmitEdit (c : closure) (updatedMessage : jsstring) : M unit :=
  if negb (truthy (c_editingMessageId c)) || negb (truthy (PStr (trim updatedMessage)))
  then mret tt
  else
    s ← session_of c;
    match find (c_editingMessageId c) (Session.messages s) with
    | None => mret tt
    | Some messageToEdit =>
        setIsLoading true;;
        try_catch
          ((if c_apiMode c then editViaApi c s messageToEdit updatedMessage
            else editViaMock c s messageToEdit updatedMessage);;
           setEditingMessageId PNull;;
           setEditingMessageText [];;
           setIsLoading false)
          (λ _, setIsLoading false)
    end.

(** An edit submitted from the handler of the latest render. *)
Definition submitEdit (updatedMessage : jsstring) (w : world) : outcome unit * world :=
  handleSubmitEdit (render w) updatedMessage w.
End ChatArea.

(** ** The copy-on-write fragments at the level of object references

    The two places that append an edit (lines 126-138 of
    [handleSendMessage], lines 261-276 of [handleSubmitEdit]) build new
    objects with spread syntax and assign into a copied array.  To
    speak about which objects are written, this module runs the same
    statements on a heap, where an array slot or the [edits] property
    that holds an object holds its location. *)
Module Heap.
Inductive object :=
| EditObject (e : Edit.t)
| EditArray (elems : list nat)
| MessageObject (id : prim) (edits : option nat)
    (question answer model_name : prim) (rest : gmap string prim)
| MessageArray (elems : list nat).

(** A location is an index into the heap; allocation extends it. *)
Abbreviation heap := (list object).

Definition alloc (o : object) (h : heap) : nat * heap := (length h, h ++ [o]).

(** [arr[i] = v] on a message array: the one mutating statement.  Both
    uses are guarded so that [i] is in range; out of range the
    embedding leaves the array as it is. *)
Definition store (arr i v : nat) (h : heap) : option heap :=
  match h !! arr with
  | Some (MessageArray elems) => Some (<[arr := MessageArray (<[i := v]> elems)]> h)
  | _ => None
  end.

(** The value an object graph stands for. *)
Definition read_edit (h : heap) (l : nat) : option Edit.t :=
  match h !! l with
  | Some (EditObject e) => Some e
  | _ => None
  end.

Definition read_edits (h : heap) (l : nat) : option (list Edit.t) :=
  match h !! l with
  | Some (EditArray elems) => mapM (read_edit h) elems
  | _ => None
  end.

Definition read_message (h : heap) (l : nat) : option Message.t :=
  match h !! l with
  | Some (MessageObject i e q a mn r) =>
      match e with
      | Some le => es ← read_edits h le; Some (Message.mk i (Some es) q a mn r)
      | None => Some (Message.mk i None q a mn r)
      end
  | _ => None
  end.

Definition read_messages (h : heap) (l : nat) : option (list Message.t) :=
  match h !! l with
  | Some (MessageArray elems) => mapM (read_message h) elems
  | _ => None
  end.

(** [{...target, edits: [...target.edits, newEdit]}]: a new array and
    a new message object, each allocated with its contents; [None]
    stands for the [TypeError] of reading through something that is not
    there. *)
Definition spreadWithEdit (target newEdit : nat) (h : heap) : option (nat * heap) :=
  match h !! target with
  | Some (MessageObject i (Some le) q a mn r) =>
      match h !! le with
      | Some (EditArray elems) =>
          let '(newEdits, h1) := alloc (EditArray (elems ++ [newEdit])) h in
          Some (alloc (MessageObject i (Some newEdits) q a mn r) h1)
      | _ => None
      end
  | _ => None
  end.

(** [[...messages]] *)
Definition spreadMessages (messages : nat) (h : heap) : option (nat * heap) :=
  match h !! messages with
  | Some (MessageArray elems) => Some (alloc (MessageArray elems) h)
  | _ => None
  end.

(** [arr[i]] *)
Definition element (arr i : nat) (h : heap) : option nat :=
  match h !! arr with
  | Some (MessageArray elems) => elems !! i
  | _ => None
  end.

(** Lines 121-138, for the array [messages] of the captured session
    and its last index: the result is the array handed to
    [updateSessionModel]. *)
Definition completeWithEdit (messages lastMessageIndex : nat)
    (e : Edit.t) (h : heap) : option (nat * heap) :=
  lastMessage ← element messages lastMessageIndex h;
  let '(newEdit, h1) := alloc (EditObject e) h in
  '(updatedMessage, h2) ← spreadWithEdit lastMessage newEdit h1;
  '(updatedMessages, h3) ← spreadMessages messages h2;
  h4 ← store updatedMessages lastMessageIndex updatedMessage h3;
  Some (updatedMessages, h4).

(** Lines 261-276, for the index [messageIndex] that [findIndex]
    returned. *)
Definition submitWithEdit (messages messageIndex : nat)
    (e : Edit.t) (h : heap) : option (nat * heap) :=
  let '(newEdit, h1) := alloc (EditObject e) h in
  '(updatedMessages, h2) ← spreadMessages messages h1;
  target ← element updatedMessages messageIndex h2;
  '(updatedMessage, h3) ← spreadWithEdit target newEdit h2;
  h4 ← store updatedMessages messageIndex updatedMessage h3;
  Some (updatedMessages, h4).

(** The objects [completeWithEdit] allocates on a heap of size [n],
    for a last message that reads as [m], in an array with slots
    [elems], with edit slots [els]. *)
Definition completed (n i : nat) (e : Edit.t) (m : Message.t)
    (elems els : list nat) : heap :=
  [EditObject e; EditArray (els ++ [n]);
   MessageObject (Message.id m) (Some (n + 1)%nat) (Message.question m)
     (Message.answer m) (Message.model_name m) (Message.rest m);
   MessageArray (<[i := (n + 2)%nat]> elems)].

(** The objects [submitWithEdit] allocates on a heap of size [n]. *)
Definition submitted (n i : nat) (e : Edit.t) (m : Message.t)
    (elems els : list nat) : heap :=
  [EditObject e; MessageArray (<[i := (n + 3)%nat]> elems); EditArray (els ++ [n]);
   MessageObject (Message.id m) (Some (n + 2)%nat) (Message.question m)
     (Message.answer m) (Message.model_name m) (Message.rest m)].
End Heap.

(** ** Observations on an exchange *)

(** A string that is empty or consists of white space only. *)
Definition blank (s : jsstring) : Prop := Forall (λ c, is_whitespace c = true) s.

Global Instance blank_dec s : Decision (blank s).
Proof. unfold blank. apply _. Defined.

(** The calls made between world [w] and the later world [w']. *)
Definition new_calls (w w' : world) : list event :=
  drop (length (calls w)) (calls w').

(** The calls to [apiService]. *)
Definition is_service_call (c : call) : bool :=
  match c with
  | createThread_call | createMessage_call _ _ _ _ | getConversation_call _
  | transformConversation_call | createMessageEdit_call _ _ _ _ => true
  | _ => false
  end.

(** Some call to [apiService] among [evs] threw. *)
Definition service_threw (evs : list event) : Prop :=
  ∃ e, e ∈ evs ∧ is_service_call (ev_call e) = true ∧ ev_ok e = false.

(** The stream simulator was started among [evs] and its run ends with
    [onError]. *)
Definition simulator_failed {D} (env : services D) (evs : list event) : Prop :=
  ∃ q m u t ok, mkEvent (sendMessage_call q m u t) ok ∈ evs ∧
                ending (sendMessage env q m u t) = Failed.

(** The calls among [evs] that satisfy [p]. *)
Definition calls_where (p : call → bool) (evs : list event) : list call :=
  List.filter p (ev_call <$> evs).

Definition is_createThread (c : call) : bool :=
  match c with createThread_call => true | _ => false end.

Definition is_createMessage (c : call) : bool :=
  match c with createMessage_call _ _ _ _ => true | _ => false end.

Definition is_convertTemporarySession (c : call) : bool :=
  match c with convertTemporarySession_call _ _ => true | _ => false end.

Definition is_addMessage (c : call) : bool :=
  match c with addMessage_call _ _ _ => true | _ => false end.

(** [addMessage] called with the fallback text as an assistant message. *)
Definition is_fallback (c : call) : bool :=
  match c with
  | addMessage_call text false _ => bool_decide (text = fallbackMessage)
  | _ => false
  end.

(** The thread id a call is made for, if it takes one. *)
Definition thread_of_call (c : call) : option prim :=
  match c with
  | createMessage_call t _ _ _ | getConversation_call t
  | updateSessionModel_call t _ _ => Some t
  | _ => None
  end.

(** [service_threw] as a test. *)
Definition threw_b (evs : list event) : bool :=
  existsb (λ e, is_service_call (ev_call e) && negb (ev_ok e)) evs.

(** The world with its partial stream text replaced. *)
Definition with_stream (w : world) (text : jsstring) : world :=
  mkWorld
    (mkComponent (isLoading (ui w)) text (editingMessageId (ui w))
       (editingMessageText (ui w)) (apiMode (ui w)) (selectedModel (ui w))
       (useContext (ui w)) (uploadedFiles (ui w)))
    (currentSession w) (calls w).

(** The component state after an edit went through: lines 297-299. *)
Definition edit_closed (u : component) : component :=
  mkComponent false (streamingMessage u) PNull [] (apiMode u) (selectedModel u)
    (useContext u) (uploadedFiles u).

(** ** Sample inputs *)

Module Examples.
Definition model : jsstring := lit "tinyllama:latest".

(** A session context that stores a user message as a question with
    an empty answer and an assistant message as an answer. *)
Definition localMessage (s : Session.t) (text : jsstring) (isUser : bool)
    (modelName : prim) : Message.t :=
  Message.mk (PStr (lit "local-" ++ num_to_string (length (Session.messages s)))) None
    (if isUser then PStr text else PUndefined)
    (if isUser then PStr [] else PStr text) modelName ∅.

Definition firstEdit : Edit.t :=
  Edit.mk (PStr (lit "e1")) (PStr model) (PStr (lit "2024-01-01T00:00:00.000Z"))
    (PStr (lit "What is 2+2?")) (PStr (lit "4")) ∅.

Definition branching : Message.t :=
  Message.mk (PStr (lit "m1")) (Some [firstEdit]) PUndefined PUndefined PUndefined ∅.

Definition legacy : Message.t :=
  Message.mk (PStr (lit "m1")) None (PStr (lit "What is 2+2?")) (PStr (lit "4"))
    (PStr model) ∅.

(** Services that answer; the conversation is its message list. *)
Definition env_up : services (list Message.t) :=
  mkServices (list Message.t)
    (Some {| thread_id := PStr (lit "thread-42") |})
    (λ _ _ _ _, Some tt)
    (λ _, Some [branching])
    (λ dto, Some dto)
    (λ _ _ _ _, Some tt)
    (λ _ _ _ _, mkStream [lit "Hel"; lit "lo, "; lit "world"] (Complete (lit "Hello, world")))
    localMessage
    (lit "2024-06-01T12:00:00.000Z").

(** Services that are down; the simulator fails after two chunks. *)
Definition env_down : services (list Message.t) :=
  mkServices (list Message.t)
    None
    (λ _ _ _ _, None)
    (λ _, None)
    (λ dto, Some dto)
    (λ _ _ _ _, None)
    (λ _ _ _ _, mkStream [lit "Hel"; lit "lo, "] Failed)
    localMessage
    (lit "2024-06-01T12:00:00.000Z").

Definition idle_ui (api : bool) (editing : prim) (text : jsstring) : component :=
  mkComponent false [] editing text api model true [].

(** A new temporary thread, real API mode. *)
Definition w_temporary : world :=
  mkWorld (idle_ui true PNull [])
    (Some (Session.mk (PStr (lit "temp-1")) true PNull [])) [].

(** A temporary thread, mock mode. *)
Definition w_streaming : world :=
  mkWorld (idle_ui false PNull [])
    (Some (Session.mk (PStr (lit "temp-1")) true PNull [])) [].

(** The same while an exchange is in flight. *)
Definition w_loading : world :=
  mkWorld (mkComponent true (lit "Hel") PNull [] false model true [])
    (Some (Session.mk (PStr (lit "temp-1")) true PNull [])) [].

(** A persisted thread whose only message is being edited. *)
Definition w_editing (api : bool) (msg : Message.t) : world :=
  mkWorld (idle_ui api (PStr (lit "m1")) (lit "What is 2+2?"))
    (Some (Session.mk (PStr (lit "thread-7")) false (PStr model) [msg])) [].

(** A heap that holds the message list [[branching]]: the edit, the
    edits array, the message and the message array. *)
Definition heap0 : Heap.heap :=
  [Heap.EditObject firstEdit; Heap.EditArray [0%nat];
   Heap.MessageObject (PStr (lit "m1")) (Some 1%nat) PUndefined PUndefined PUndefined ∅;
   Heap.MessageArray [2%nat]].
End Examples.

(** ** The rest of the component *)

(** *** The editing session *)

(** Lines 214-217. *)
Definition handleEditMessage (messageId : prim) (questionText : jsstring) : M unit :=
  setEditingMessageId messageId;;
  setEditingMessageText questionText.

(** Lines 307-310. *)
Definition handleCancelEdit : M unit :=
  setEditingMessageId PNull;;
  setEditingMessageText [].

Section Input.
Context {ConversationDTO : Type} (env : services ConversationDTO).

(** Lines 337-354: the [onSendMessage] prop of the message input that
    the render shows, the one of the editing input when
    [editingMessageId] is truthy and the one of the plain input
    otherwise. *)
Definition onSendMessage (c : closure) (text : jsstring) : M unit :=
  if truthy (c_editingMessageId c) then handleSubmitEdit env c text
  else handleSendMessage env c text.

(** Text submitted through the input of the latest render. *)
Definition submitInput (text : jsstring) (w : world) : outcome unit * world :=
  onSendMessage (render w) text w.
End Input.

(** *** Files and models *)

(** An entry of [uploadedFiles]: lines 190-196. *)
Module File.
Record t := mk {
  id : prim;
  name : prim;
  size : prim;
  type : prim;
  uploadedAt : prim
}.
End File.

(** The properties of the browser file that [handleFileUpload] reads. *)
Record upload := mkUpload { file_name : prim; file_size : prim; file_type : prim }.

(** An entry of [availableModels]: lines 13-17. *)
Module Model.
Record t := mk { id : jsstring; name : jsstring }.
End Model.

(** The two readings of the clock in lines 191 and 195: [Date.now()]
    and [new Date().toISOString()]. *)
Record clock := mkClock { dateNow : Z; isoString : jsstring }.

(** Number-to-string conversion of an integer, as done by a template
    literal (for the integers that print without an exponent). *)
Definition int_to_string (z : Z) : jsstring := lit (pretty z).

(** The component with the cells that the exchange handlers do not
    use.  [files] is [uploadedFiles] with its objects; the component
    record of the exchange handlers keeps, of each file, its id, and
    [setUploadedFiles] sets both.  [progressed] records the values
    passed to the [onProgress] callback, in order. *)
Record page := mkPage {
  base : world;
  files : list File.t;
  isProcessing : bool;
  availableModels : list Model.t;
  progressed : list Z
}.

(** The effect monad on a page. *)
Definition P (A : Type) : Type := page → outcome A * page.

Global Instance P_ret : MRet P := λ A a p, (Returned a, p).

Global Instance P_bind : MBind P := λ A B f m p,
  match m p with
  | (Returned a, p') => f a p'
  | (Thrown e, p') => (Thrown e, p')
  end.

(** [throw error] *)
Definition raise {A} (e : error) : P A := λ p, (Thrown e, p).

(** [try { m } catch (error) { h }], and [.catch(h)] on a promise. *)
Definition catching {A} (m : P A) (h : error → P A) : P A :=
  λ p, match m p with
       | (Returned a, p') => (Returned a, p')
       | (Thrown e, p') => h e p'
       end.

(** A handler of the exchange part, run on the page. *)
Definition lift {A} (m : M A) : P A :=
  λ p, let '(o, w) := m (base p) in
       (o, mkPage w (files p) (isProcessing p) (availableModels p) (progressed p)).

(** The world with the ids of its uploaded files replaced. *)
Definition with_uploaded (w : world) (ids : list prim) : world :=
  mkWorld
    (mkComponent (isLoading (ui w)) (streamingMessage (ui w)) (editingMessageId (ui w))
       (editingMessageText (ui w)) (apiMode (ui w)) (selectedModel (ui w))
       (useContext (ui w)) ids)
    (currentSession w) (calls w).

Definition setIsProcessing (b : bool) : P unit :=
  λ p, (Returned tt, mkPage (base p) (files p) b (availableModels p) (progressed p)).

(** [setUploadedFiles(prev => f(prev))] *)
Definition setUploadedFiles (f : list File.t → list File.t) : P unit :=
  λ p, (Returned tt,
        mkPage (with_uploaded (base p) (File.id <$> f (files p))) (f (files p))
          (isProcessing p) (availableModels p) (progressed p)).

Definition setAvailableModels (models : list Model.t) : P unit :=
  λ p, (Returned tt, mkPage (base p) (files p) (isProcessing p) models (progressed p)).

Definition setSelectedModel (model : jsstring) : M unit :=
  modify_ui (λ u, mkComponent (isLoading u) (streamingMessage u) (editingMessageId u)
    (editingMessageText u) (apiMode u) model (useContext u) (uploadedFiles u)).

(** [onProgress(progress)]: the call is recorded; what the callback
    does is its result, [Thrown e] when it throws [e]. *)
Definition callProgress (onProgress : Z → outcome unit) (progress : Z) : P unit :=
  λ p, (onProgress progress,
        mkPage (base p) (files p) (isProcessing p) (availableModels p)
          (progressed p ++ [progress])).

(** Lines 184-187: the loop from [progress], with [fuel] bounding the
    number of iterations.  The timer between two iterations lets time
    pass and changes nothing. *)
Fixpoint reportProgress (fuel : nat) (onProgress : Z → outcome unit) (progress : Z) : P unit :=
  match fuel with
  | O => mret tt
  | S fuel' =>
      if (progress <=? 100)%Z then
        callProgress onProgress progress;;
        reportProgress fuel' onProgress (progress + 10)%Z
      else mret tt
  end.

(** The values that the loop visits from [progress] within [fuel]
    iterations. *)
Fixpoint stepsFrom (fuel : nat) (progress : Z) : list Z :=
  match fuel with
  | O => []
  | S fuel' =>
      if (progress <=? 100)%Z then progress :: stepsFrom fuel' (progress + 10)%Z else []
  end.

(** The page with further values recorded as passed to [onProgress]. *)
Definition with_progress (p : page) (steps : list Z) : page :=
  mkPage (base p) (files p) (isProcessing p) (availableModels p) (progressed p ++ steps).

(** Lines 190-196. *)
Definition mockFile (clk : clock) (file : upload) : File.t :=
  File.mk (PStr (lit "mock_file_" ++ int_to_string (dateNow clk)))
    (file_name file) (file_size file) (file_type file) (PStr (isoString clk)).

(** Lines 178-205.  Eleven iterations take the loop from 0 past 100. *)
Definition handleFileUpload (clk : clock) (file : upload)
    (onProgress : Z → outcome unit) : P File.t :=
  setIsProcessing true;;
  catching
    (reportProgress 11 onProgress 0;;
     let uploaded := mockFile clk file in
     setUploadedFiles (λ prev, prev ++ [uploaded]);;
     setIsProcessing false;;
     mret uploaded)
    (λ error, setIsProcessing false;; raise error).

(** Lines 207-209. *)
Definition handleRemoveFile (fileId : prim) : P unit :=
  setUploadedFiles (λ prev, filter (λ file, File.id file ≠ fileId) prev).

(** Lines 30-37: the effect run on mount, for the result of
    [mockApiService.getAvailableModels()], [None] when the promise
    rejects.  Reading [id] of the first element of an empty list is a
    [TypeError], which the [catch] callback logs. *)
Definition fetchModels (result : option (list Model.t)) : P unit :=
  match result with
  | Some models =>
      catching
        (setAvailableModels models;;
         match models with
         | first :: _ => lift (setSelectedModel (Model.id first))
         | [] => raise TypeError
         end)
        (λ _, mret tt)
  | None => mret tt
  end.

(** The page keeps the ids of its files in the component record. *)
Definition synced (p : page) : Prop :=
  uploadedFiles (ui (base p)) = File.id <$> files p.

(** ** Further observations *)

Definition is_updateSessionModel (c : call) : bool :=
  match c with updateSessionModel_call _ _ _ => true | _ => false end.

Definition is_sendMessage (c : call) : bool :=
  match c with sendMessage_call _ _ _ _ => true | _ => false end.

Definition is_createMessageEdit (c : call) : bool :=
  match c with createMessageEdit_call _ _ _ _ => true | _ => false end.

(** The calls that [handleSubmitEdit] makes. *)
Definition is_edit_call (c : call) : bool :=
  match c with
  | createMessageEdit_call _ _ _ _ | getConversation_call _
  | transformConversation_call | updateSessionModel_call _ _ _ => true
  | _ => false
  end.

(** The events among [evs] that are calls to [apiService]. *)
Definition service_events (evs : list event) : list event :=
  List.filter (λ e, is_service_call (ev_call e)) evs.

(** The cells of the component that are settings. *)
Definition settings (u : component) : bool * jsstring * bool * list prim :=
  (apiMode u, selectedModel u, useContext u, uploadedFiles u).

(** The progress values of the loop of [handleFileUpload]. *)
Definition progressSteps : list Z := [0; 10; 20; 30; 40; 50; 60; 70; 80; 90; 100]%Z.

(** ** Further sample inputs *)

Module Samples.
Definition clk : clock := mkClock 1717243200000 (lit "2024-06-01T12:00:00.000Z").

Definition report : upload :=
  mkUpload (PStr (lit "report.pdf")) (PNum 1024) (PStr (lit "application/pdf")).

(** A progress callback that returns, and one that throws at 30. *)
Definition quiet : Z → outcome unit := λ _, Returned tt.

Definition failing_at_30 : Z → outcome unit :=
  λ z, if (z =? 30)%Z then Thrown ServiceError else Returned tt.

Definition models : list Model.t :=
  [Model.mk (lit "qwen3:0.6b") (lit "Qwen 0.6B");
   Model.mk (lit "tinyllama:latest") (lit "TinyLlama")].

(** The page of a temporary thread in mock mode, without files. *)
Definition page0 : page := mkPage Examples.w_streaming [] false [] [].

(** A message with an edits list that is empty. *)
Definition hollow : Message.t :=
  Message.mk (PStr (lit "m1")) (Some []) PUndefined PUndefined PUndefined ∅.

(** A persisted thread in mock mode whose only message is [msg]. *)
Definition w_thread (msg : Message.t) : world :=
  mkWorld (Examples.idle_ui false PNull [])
    (Some (Session.mk (PStr (lit "thread-7")) false (PStr Examples.model) [msg])) [].

(** A message is being edited while an exchange is in flight. *)
Definition w_editing_in_flight : world :=
  mkWorld (mkComponent true (lit "Hel") (PStr (lit "m1")) (lit "What is 2+2?") false
             Examples.model true [])
    (Some (Session.mk (PStr (lit "thread-7")) false (PStr Examples.model)
             [Examples.branching])) [].

(** A message id is set, but there is no session. *)
Definition w_editing_nowhere : world :=
  mkWorld (Examples.idle_ui false (PStr (lit "m1")) (lit "What is 2+2?")) None [].
End Samples.

(** * Properties *)

(** ** Strings *)

Lemma trimStart_blank s : blank s → trimStart s = [].
Proof.
  induction 1 as [|c s Hc _ IH]; simpl; [done|]. by rewrite Hc.
Qed.

Lemma trimStart_nil_blank s : trimStart s = [] → blank s.
Proof.
  induction s as [|c s IH]; simpl; [constructor|].
  destruct (is_whitespace c) eqn:Hc; [|done].
  intros H. apply Forall_cons. split; [done|by apply IH].
Qed.

Lemma trimStart_head s c s' : trimStart s = c :: s' → is_whitespace c = false.
Proof.
  induction s as [|d s IH]; simpl; [done|].
  destruct (is_whitespace d) eqn:Hd; [done|]. by intros [= <- _].
Qed.

Lemma trim_blank s : trim s = [] ↔ blank s.
Proof.
  unfold trim, trimEnd. split.
  - intros H. apply (f_equal reverse) in H. rewrite reverse_involutive in H.
    change (reverse []) with (@nil N) in H.
    apply trimStart_nil_blank in H.
    destruct (trimStart s) as [|c s'] eqn:Hs; [by apply trimStart_nil_blank|].
    apply trimStart_head in Hs.
    unfold blank in H. rewrite reverse_cons, Forall_app, Forall_singleton in H.
    destruct H as [_ H]. congruence.
  - intros H. by rewrite (trimStart_blank _ H).
Qed.

(** The test [!message.trim()]. *)
Lemma not_trim_truthy s : negb (truthy (PStr (trim s))) = bool_decide (blank s).
Proof.
  simpl. rewrite negb_involutive. apply bool_decide_ext, trim_blank.
Qed.

(** ** Running the handlers *)

Ltac unfold_handlers :=
  unfold send, submitEdit, handleSendMessage, handleSubmitEdit, beginExchange,
    sendViaApi, sendViaMock, editViaApi, editViaMock, finish, onError, onComplete,
    appendAnswerEdit, session_of, optional_id, render in *.

Ltac unfold_monad :=
  unfold await, addMessage, convertTemporarySession, updateSessionModel,
    setIsLoading, setStreamingMessage, setEditingMessageId, setEditingMessageText,
    updateStreamingMessage, modify_ui, record, throw, try_catch, detached,
    mbind, M_bind, mret, M_ret in *.

Lemma strict_eq_refl a : strict_eq a a = true.
Proof. unfold strict_eq. by apply bool_decide_eq_true_2. Qed.

Lemma new_calls_app w w' evs : calls w' = calls w ++ evs → new_calls w w' = evs.
Proof. intros H. unfold new_calls. rewrite H. by rewrite drop_app_length. Qed.

Lemma new_calls_refl w : new_calls w w = [].
Proof. unfold new_calls. by rewrite drop_all. Qed.

Lemma service_threw_nil : ¬ service_threw [].
Proof. intros (e & He & _). by apply elem_of_nil in He. Qed.

Lemma service_threw_cons e evs :
  service_threw (e :: evs) ↔
  (is_service_call (ev_call e) = true ∧ ev_ok e = false) ∨ service_threw evs.
Proof.
  unfold service_threw. split.
  - intros (e' & He & H). apply elem_of_cons in He as [->|He]; [by left|].
    right. by exists e'.
  - intros [H|(e' & He & H)].
    + exists e. split; [by left|done].
    + exists e'. split; [by right|done].
Qed.

Lemma service_threw_spec evs : service_threw evs ↔ threw_b evs = true.
Proof.
  unfold service_threw, threw_b. rewrite existsb_exists. split.
  - intros (e & He & H1 & H2). exists e. by rewrite <- list_elem_of_In, H1, H2.
  - intros (e & He & H). apply andb_true_iff in H as [H1 H2].
    exists e. rewrite list_elem_of_In. by destruct (ev_ok e).
Qed.

Lemma new_calls_same w w' : calls w' = calls w → new_calls w w' = [].
Proof. intros H. unfold new_calls. rewrite H. by rewrite drop_all. Qed.

(** Rewrites [new_calls] of an explicit later world to the list of the
    events that were added. *)
Ltac calls_norm :=
  repeat match goal with
  | |- context [new_calls ?w ?w'] =>
      first [ rewrite (new_calls_same w w') by reflexivity
            | erewrite (new_calls_app w w')
                by (simpl; rewrite <- ?app_assoc; simpl; reflexivity) ]
  | H : context [new_calls ?w ?w'] |- _ =>
      first [ rewrite (new_calls_same w w') in H by reflexivity
            | erewrite (new_calls_app w w') in H
                by (simpl; rewrite <- ?app_assoc; simpl; reflexivity) ]
  end.

(** Decides [service_threw] on an explicit list of events. *)
Ltac threw_norm :=
  repeat match goal with
  | H : service_threw [] |- _ => by apply service_threw_nil in H
  | H : service_threw (_ :: _) |- _ =>
      apply service_threw_cons in H; simpl in H;
      destruct H as [[? ?]|H]; [try discriminate|]
  | H : ¬ service_threw (_ :: _) |- _ =>
      rewrite service_threw_cons in H; simpl in H
  end.

(** Splits on the results of the services that the goal inspects. *)
Ltac split_services :=
  repeat (match goal with
          | |- context [match ?x with Some _ => _ | None => _ end] => destruct x eqn:?
          end; simpl; rewrite ?strict_eq_refl; simpl).

Section Properties.
Context {ConversationDTO : Type} (env : services ConversationDTO).

(** *** The guard of [handleSendMessage] *)

Lemma send_rejected message w :
  blank message ∨ isLoading (ui w) = true → send env message w = (Returned tt, w).
Proof.
  intros H. unfold send, handleSendMessage. rewrite not_trim_truthy.
  destruct H as [H|H].
  - by rewrite (bool_decide_eq_true_2 _ H).
  - unfold render; simpl. rewrite H. by rewrite orb_true_r.
Qed.

Lemma send_accepted message w :
  ¬ blank message → isLoading (ui w) = false →
  send env message w =
  (beginExchange env message;;
   if apiMode (ui w)
   then try_catch (sendViaApi env (render w) message) (λ _, onError env (render w))
   else sendViaMock env (render w) message) w.
Proof.
  intros Hb Hl. unfold send, handleSendMessage. rewrite not_trim_truthy.
  rewrite (bool_decide_eq_false_2 _ Hb). unfold render at 1; simpl. by rewrite Hl.
Qed.

(** *** The stream *)

Lemma deliver_spec cs w :
  deliver cs w = (Returned tt, with_stream w (streamingMessage (ui w) ++ concat cs)).
Proof.
  revert w. induction cs as [|c cs IH]; intros [[] ? ?]; unfold with_stream; simpl.
  - by rewrite app_nil_r.
  - unfold mbind, M_bind, onChunk, updateStreamingMessage, modify_ui. simpl.
    rewrite IH. unfold with_stream. simpl. by rewrite <- app_assoc.
Qed.

Lemma simulator_failed_nil : ¬ simulator_failed env [].
Proof. intros (q & m & u & t & ok & He & _). by apply elem_of_nil in He. Qed.

Lemma simulator_failed_cons e evs :
  simulator_failed env (e :: evs) ↔
  (match ev_call e with
   | sendMessage_call q m u t => ending (sendMessage env q m u t) = Failed
   | _ => False
   end) ∨ simulator_failed env evs.
Proof.
  unfold simulator_failed. split.
  - intros (q & m & u & t & ok & He & H).
    apply elem_of_cons in He as [<-|He]; [by left|].
    right. by exists q, m, u, t, ok.
  - intros [H|(q & m & u & t & ok & He & H)].
    + destruct e as [[] ok]; simpl in H; try done.
      eexists _, _, _, _, ok. split; [by left|done].
    + exists q, m, u, t, ok. split; [by right|done].
Qed.

Lemma deliver_cleared cs w :
  streamingMessage (ui ((setStreamingMessage [];; deliver cs) w).2) = concat cs.
Proof.
  unfold mbind, M_bind, setStreamingMessage, updateStreamingMessage, modify_ui.
  by rewrite deliver_spec.
Qed.

(** *** The guard of [handleSubmitEdit] *)

Lemma find_Some editingId msgs m :
  find editingId msgs = Some m →
  ∃ i, findIndex editingId msgs = Some i ∧ msgs !! i = Some m ∧ Message.id m = editingId.
Proof.
  unfold find, findIndex. destruct (list_find _ msgs) as [[i m']|] eqn:H; [|done].
  intros [= ->]. apply list_find_Some in H as (? & ? & _). by exists i.
Qed.

Lemma findIndex_find editingId msgs i m :
  findIndex editingId msgs = Some i → msgs !! i = Some m → find editingId msgs = Some m.
Proof.
  unfold find, findIndex. destruct (list_find _ msgs) as [[i' m']|] eqn:H; [|done].
  intros [= ->] Hm. apply list_find_Some in H as (? & _). simpl. congruence.
Qed.

Lemma submitEdit_accepted updatedMessage w s m :
  truthy (editingMessageId (ui w)) = true → ¬ blank updatedMessage →
  currentSession w = Some s →
  find (editingMessageId (ui w)) (Session.messages s) = Some m →
  submitEdit env updatedMessage w =
  (setIsLoading true;;
   try_catch
     ((if apiMode (ui w) then editViaApi env (render w) s m updatedMessage
       else editViaMock env (render w) s m updatedMessage);;
      setEditingMessageId PNull;;
      setEditingMessageText [];;
      setIsLoading false)
     (λ _, setIsLoading false)) w.
Proof.
  intros Hid Hb Hs Hm. unfold submitEdit, handleSubmitEdit.
  rewrite not_trim_truthy, (bool_decide_eq_false_2 _ Hb).
  unfold render at 1; simpl. rewrite Hid; simpl.
  unfold session_of, render at 1; simpl. rewrite Hs.
  unfold mbind at 1, M_bind, mret, M_ret. unfold render at 1; simpl. by rewrite Hm.
Qed.

(** *** The three ways an accepted edit in hand goes through *)

Lemma submitEdit_mock_branching updatedMessage w s m es e0 i :
  truthy (editingMessageId (ui w)) = true → ¬ blank updatedMessage →
  currentSession w = Some s → apiMode (ui w) = false →
  findIndex (editingMessageId (ui w)) (Session.messages s) = Some i →
  Session.messages s !! i = Some m →
  Message.edits m = Some es → latestEdit es = Some e0 →
  let newEdit := mockEdit env (render w) (length es) updatedMessage (Edit.answer e0) in
  let msgs' := <[i := Message.with_edits m (es ++ [newEdit])]> (Session.messages s) in
  submitEdit env updatedMessage w =
  (Returned tt,
   mkWorld (edit_closed (ui w))
     (Some (Session.mk (Session.id s) (Session.isTemporary s)
              (PStr (selectedModel (ui w))) msgs'))
     (calls w ++
      [mkEvent (updateSessionModel_call (Session.id s) (selectedModel (ui w)) msgs') true])).
Proof.
  intros Hid Hb Hs Ha Hi Hl He H0.
  rewrite (submitEdit_accepted _ _ s m) by eauto using findIndex_find. rewrite Ha.
  destruct w as [[ld sm ei et am model uc uf] so cs]; simpl in *. subst so am.
  unfold editViaMock. simpl. rewrite He, H0, Hi, Hl. simpl. rewrite He.
  unfold_monad; simpl. by rewrite strict_eq_refl.
Qed.

Lemma submitEdit_mock_legacy updatedMessage w s m i :
  truthy (editingMessageId (ui w)) = true → ¬ blank updatedMessage →
  currentSession w = Some s → apiMode (ui w) = false →
  findIndex (editingMessageId (ui w)) (Session.messages s) = Some i →
  Session.messages s !! i = Some m →
  Message.edits m = None →
  let msgs' := <[i := Message.with_question m (PStr updatedMessage)]> (Session.messages s) in
  submitEdit env updatedMessage w =
  (Returned tt,
   mkWorld (edit_closed (ui w))
     (Some (Session.mk (Session.id s) (Session.isTemporary s)
              (PStr (selectedModel (ui w))) msgs'))
     (calls w ++
      [mkEvent (updateSessionModel_call (Session.id s) (selectedModel (ui w)) msgs') true])).
Proof.
  intros Hid Hb Hs Ha Hi Hl He.
  rewrite (submitEdit_accepted _ _ s m) by eauto using findIndex_find. rewrite Ha.
  destruct w as [[ld sm ei et am model uc uf] so cs]; simpl in *. subst so am.
  unfold editViaMock. simpl. rewrite He, Hi, Hl. simpl.
  unfold_monad; simpl. by rewrite strict_eq_refl.
Qed.

Lemma submitEdit_api_legacy updatedMessage w s m :
  truthy (editingMessageId (ui w)) = true → ¬ blank updatedMessage →
  currentSession w = Some s → apiMode (ui w) = true →
  find (editingMessageId (ui w)) (Session.messages s) = Some m →
  Message.edits m = None →
  submitEdit env updatedMessage w =
  (Returned tt, mkWorld (edit_closed (ui w)) (Some s) (calls w)).
Proof.
  intros Hid Hb Hs Ha Hm He.
  rewrite (submitEdit_accepted _ _ s m) by done. rewrite Ha.
  destruct w as [[ld sm ei et am model uc uf] so cs]; simpl in *. subst so am.
  unfold editViaApi. rewrite He. by unfold_monad.
Qed.

(** *** A completed stream onto a branching last message *)

Lemma send_mock_stream message w s :
  ¬ blank message → isLoading (ui w) = false → apiMode (ui w) = false →
  currentSession w = Some s →
  let run := sendMessage env message (selectedModel (ui w))
               (useContext (ui w) && bool_decide (0 < length (uploadedFiles (ui w)))%nat)
               (Session.id s) in
  ∃ w1,
    streamingMessage (ui w1) = concat (chunks run) ∧
    isLoading (ui w1) = true ∧
    currentSession w1 =
      Some (Session.mk (Session.id s) (Session.isTemporary s) (Session.modelName s)
              (Session.messages s ++ [newMessage env s message true PNull])) ∧
    send env message w = finish env (render w) message (ending run) w1.
Proof.
  intros Hb Hl Ha Hs run. rewrite send_accepted by done. rewrite Ha.
  destruct w as [[ld sm ei et am model uc uf] so cs]; simpl in *. subst so am.
  unfold beginExchange, sendViaMock, optional_id. simpl.
  unfold_monad; simpl. rewrite deliver_spec. fold run.
  eexists. split; [|split; [|split; [|reflexivity]]]; done.
Qed.

Lemma send_mock_complete_branching message w s m es fullResponse :
  ¬ blank message → isLoading (ui w) = false → apiMode (ui w) = false →
  currentSession w = Some s →
  ending (sendMessage env message (selectedModel (ui w))
            (useContext (ui w) && bool_decide (0 < length (uploadedFiles (ui w)))%nat)
            (Session.id s)) = Complete fullResponse →
  Session.messages s !! (length (Session.messages s) - 1)%nat = Some m →
  Message.edits m = Some es →
  let e := mockEdit env (render w) (length es) message (PStr fullResponse) in
  let msgs' := <[(length (Session.messages s) - 1)%nat := Message.with_edits m (es ++ [e])]>
                 (Session.messages s) in
  (send env message w).1 = Returned tt ∧
  currentSession (send env message w).2 =
    Some (Session.mk (Session.id s) (Session.isTemporary s) (PStr (selectedModel (ui w)))
            msgs') ∧
  last (new_calls w (send env message w).2) =
    Some (mkEvent (updateSessionModel_call (Session.id s) (selectedModel (ui w)) msgs') true).
Proof.
  intros Hb Hl Ha Hs Hend Hm He e msgs'. subst msgs' e.
  rewrite send_accepted by done. rewrite Ha.
  destruct w as [[ld sm ei et am model uc uf] so cs]; simpl in *. subst so am.
  unfold beginExchange, sendViaMock, optional_id. simpl.
  unfold_monad; simpl. rewrite deliver_spec, Hend. unfold with_stream; simpl.
  unfold onComplete; simpl. rewrite Hm, He.
  unfold_monad; simpl. rewrite strict_eq_refl. calls_norm. done.
Qed.
End Properties.

(** Decides [simulator_failed] on an explicit list of events. *)
Ltac failed_norm :=
  repeat match goal with
  | H : simulator_failed _ [] |- _ => by apply simulator_failed_nil in H
  | H : simulator_failed _ (_ :: _) |- _ =>
      apply simulator_failed_cons in H; simpl in H;
      destruct H as [H|H]; [try done|]
  end.

(** Splits on which element of an explicit list a member is. *)
Ltac in_list :=
  repeat match goal with
  | H : _ ∈ [] |- _ => by apply elem_of_nil in H
  | H : _ ∈ _ :: _ |- _ => apply elem_of_cons in H as [->|H]
  end.

(** ** The heap level *)

Module HeapFacts.
Import Heap.

(** Reading is stable under allocation. *)
Lemma read_edit_app h fresh l e :
  read_edit h l = Some e → read_edit (h ++ fresh) l = Some e.
Proof.
  unfold read_edit. destruct (h !! l) as [o|] eqn:H; [|done].
  by rewrite (lookup_app_l_Some _ _ _ _ H).
Qed.

Lemma read_edits_app h fresh l es :
  read_edits h l = Some es → read_edits (h ++ fresh) l = Some es.
Proof.
  unfold read_edits. destruct (h !! l) as [o|] eqn:H; [|done].
  rewrite (lookup_app_l_Some _ _ _ _ H). destruct o; try done.
  rewrite !mapM_Some. intros HF. eapply Forall2_impl; [exact HF|].
  intros ??. apply read_edit_app.
Qed.

Lemma read_message_app h fresh l m :
  read_message h l = Some m → read_message (h ++ fresh) l = Some m.
Proof.
  unfold read_message. destruct (h !! l) as [o|] eqn:H; [|done].
  rewrite (lookup_app_l_Some _ _ _ _ H).
  destruct o as [| |i [le|] q a mn r|]; try done.
  destruct (read_edits h le) as [es|] eqn:He; [|done].
  by rewrite (read_edits_app _ _ _ _ He).
Qed.

Lemma read_messages_app h fresh l msgs :
  read_messages h l = Some msgs → read_messages (h ++ fresh) l = Some msgs.
Proof.
  unfold read_messages. destruct (h !! l) as [o|] eqn:H; [|done].
  rewrite (lookup_app_l_Some _ _ _ _ H). destruct o; try done.
  rewrite !mapM_Some. intros HF. eapply Forall2_impl; [exact HF|].
  intros ??. apply read_message_app.
Qed.

(** What a readable message array with a branching message at [i]
    looks like on the heap. *)
Lemma read_messages_inv h messages msgs i m es :
  read_messages h messages = Some msgs → msgs !! i = Some m →
  Message.edits m = Some es →
  ∃ elems target le els,
    h !! messages = Some (MessageArray elems) ∧
    Forall2 (λ l m, read_message h l = Some m) elems msgs ∧
    elems !! i = Some target ∧
    h !! target = Some (MessageObject (Message.id m) (Some le) (Message.question m)
                         (Message.answer m) (Message.model_name m) (Message.rest m)) ∧
    h !! le = Some (EditArray els) ∧
    Forall2 (λ l e, read_edit h l = Some e) els es.
Proof.
  unfold read_messages. intros Hr Hi He.
  destruct (h !! messages) as [[| | |elems]|] eqn:Hm; try done.
  apply mapM_Some in Hr.
  destruct (Forall2_lookup_r _ _ _ _ _ Hr Hi) as (target & Ht & Hread).
  exists elems, target. unfold read_message in Hread.
  destruct (h !! target) as [[| |mid [le|] q a mn r|]|] eqn:Htarget; try done.
  - unfold read_edits in Hread.
    destruct (h !! le) as [[|els| |]|] eqn:Hle; try done.
    destruct (mapM (read_edit h) els) as [es'|] eqn:Hes; [|done].
    simpl in Hread. injection Hread as <-. simpl in He. injection He as <-.
    exists le, els. repeat split; try done. by apply mapM_Some.
  - injection Hread as <-. done.
Qed.

Lemma lookup_fresh (h : heap) fresh k :
  (h ++ fresh) !! (length h + k)%nat = fresh !! k.
Proof. rewrite lookup_app_r by lia. f_equal. lia. Qed.

Lemma insert_fresh (h : heap) fresh k o :
  <[(length h + k)%nat := o]> (h ++ fresh) = h ++ <[k := o]> fresh.
Proof. rewrite insert_app_r_alt by lia. do 2 f_equal. lia. Qed.

Lemma read_appended h fresh els es n e :
  Forall2 (λ l e, read_edit h l = Some e) els es →
  n = length h → fresh !! 0%nat = Some (EditObject e) →
  mapM (read_edit (h ++ fresh)) (els ++ [n]) = Some (es ++ [e]).
Proof.
  intros Hes -> Hf. apply mapM_Some, Forall2_app.
  - eapply Forall2_impl; [exact Hes|]. intros ??. apply read_edit_app.
  - constructor; [|constructor]. unfold read_edit.
    by rewrite <- (Nat.add_0_r (length h)), lookup_fresh, Hf.
Qed.

(** Lines 121-138 only allocate: the heap grows by four objects, and
    the new array reads as the old list with the grown message at
    [i]. *)
Lemma completeWithEdit_run h messages i e msgs m es :
  read_messages h messages = Some msgs → msgs !! i = Some m →
  Message.edits m = Some es →
  ∃ r fresh,
    completeWithEdit messages i e h = Some (r, h ++ fresh) ∧
    (length h ≤ r)%nat ∧
    read_messages (h ++ fresh) r = Some (<[i := Message.with_edits m (es ++ [e])]> msgs).
Proof.
  intros Hr Hi He.
  destruct (read_messages_inv _ _ _ _ _ _ Hr Hi He)
    as (elems & target & le & els & Hm & Hall & Ht & Htarget & Hle & Hes).
  exists (length h + 3)%nat, (completed (length h) i e m elems els).
  split; [|split; [lia|]].
  - unfold completeWithEdit, element. rewrite Hm. simpl. rewrite Ht. simpl.
    unfold spreadWithEdit, alloc.
    rewrite (lookup_app_l_Some _ _ _ _ Htarget), (lookup_app_l_Some _ _ _ _ Hle).
    simpl. unfold spreadMessages, alloc.
    rewrite <- !app_assoc. simpl.
    rewrite (lookup_app_l_Some _ _ _ _ Hm). simpl.
    unfold store. rewrite !length_app. simpl.
    rewrite <- !app_assoc. simpl.
    rewrite lookup_fresh. simpl. by rewrite insert_fresh.
  - unfold read_messages. rewrite lookup_fresh. simpl.
    apply mapM_Some, Forall2_insert.
    + eapply Forall2_impl; [exact Hall|]. intros ??. apply read_message_app.
    + unfold read_message. rewrite lookup_fresh. simpl.
      unfold read_edits. rewrite lookup_fresh. simpl.
      rewrite (read_appended h _ els es (length h) e) by done. simpl.
      by destruct m; simpl in *; subst.
Qed.

(** The same for lines 261-276. *)
Lemma submitWithEdit_run h messages i e msgs m es :
  read_messages h messages = Some msgs → msgs !! i = Some m →
  Message.edits m = Some es →
  ∃ r fresh,
    submitWithEdit messages i e h = Some (r, h ++ fresh) ∧
    (length h ≤ r)%nat ∧
    read_messages (h ++ fresh) r = Some (<[i := Message.with_edits m (es ++ [e])]> msgs).
Proof.
  intros Hr Hi He.
  destruct (read_messages_inv _ _ _ _ _ _ Hr Hi He)
    as (elems & target & le & els & Hm & Hall & Ht & Htarget & Hle & Hes).
  exists (length h + 1)%nat, (submitted (length h) i e m elems els).
  split; [|split; [lia|]].
  - unfold submitWithEdit, alloc, spreadMessages.
    rewrite (lookup_app_l_Some _ _ _ _ Hm). simpl.
    unfold alloc, element. rewrite !length_app. simpl.
    rewrite <- !app_assoc. simpl. rewrite lookup_fresh. simpl. rewrite Ht. simpl.
    unfold spreadWithEdit, alloc.
    rewrite (lookup_app_l_Some _ _ _ _ Htarget), (lookup_app_l_Some _ _ _ _ Hle).
    simpl. unfold store. rewrite !length_app. simpl.
    rewrite <- !app_assoc. simpl.
    rewrite lookup_fresh. simpl. rewrite insert_fresh. simpl.
    by replace (length h + 2 + 1)%nat with (length h + 3)%nat by lia.
  - unfold read_messages. rewrite lookup_fresh. simpl.
    apply mapM_Some, Forall2_insert.
    + eapply Forall2_impl; [exact Hall|]. intros ??. apply read_message_app.
    + unfold read_message. rewrite lookup_fresh. simpl.
      unfold read_edits. rewrite lookup_fresh. simpl.
      rewrite (read_appended h _ els es (length h) e) by done. simpl.
      by destruct m; simpl in *; subst.
Qed.
End HeapFacts.

(** ** The claims *)

Section Claims.
Context {ConversationDTO : Type} (env : services ConversationDTO).

(** C1, as amended.  An accepted send on a temporary thread in real
    API mode calls [createThread] exactly once.  When that call
    returns, [convertTemporarySession] is called once, every later
    call that takes a thread id uses the backend-assigned id, and the
    thread ends with that id and [isTemporary = false]; when it
    throws, the thread keeps its id and stays temporary.  A send on a
    thread that is not temporary, in either mode, never calls
    [createThread], and the thread keeps its id. *)
Theorem promotion_when_createThread_returns message w s :
  currentSession w = Some s →
  let w' := (send env message w).2 in
  let evs := new_calls w w' in
  (Session.isTemporary s = true → apiMode (ui w) = true →
   ¬ blank message → isLoading (ui w) = false →
     calls_where is_createThread evs = [createThread_call] ∧
     (∀ t, createThread env = Some t →
        calls_where is_convertTemporarySession evs =
          [convertTemporarySession_call (Session.id s) t] ∧
        (∀ e tid, e ∈ evs → thread_of_call (ev_call e) = Some tid → tid = thread_id t) ∧
        ∃ s', currentSession w' = Some s' ∧
              Session.id s' = thread_id t ∧ Session.isTemporary s' = false) ∧
     (createThread env = None →
        ∃ s', currentSession w' = Some s' ∧
              Session.id s' = Session.id s ∧ Session.isTemporary s' = true))
  ∧ (Session.isTemporary s = false →
     calls_where is_createThread evs = [] ∧
     ∃ s', currentSession w' = Some s' ∧
           Session.id s' = Session.id s ∧ Session.isTemporary s' = false).
Proof.
  intros Hs. split.
  - intros Htmp Ha Hb Hl. rewrite send_accepted by done.
    destruct w as [[ld sm ei et am model uc uf] so cs]; simpl in *. subst so am.
    destruct s as [sid tmp mn msgs0]; simpl in *. subst tmp.
    unfold_handlers; unfold_monad; simpl.
    split_services; calls_norm; unfold calls_where; simpl.
    all: split; [done|]; split; [intros t' [= <-]|intros [=]].
    all: try (split; [done|]); try (split; [|by eexists]).
    all: try by eexists.
    all: intros e tid He; in_list; simpl; congruence.
  - intros Htmp.
    destruct (decide (blank message)) as [Hb|Hb];
      [|destruct (isLoading (ui w)) eqn:Hl].
    1, 2: rewrite send_rejected by auto; simpl; rewrite new_calls_refl;
          split; [done|]; by exists s.
    rewrite send_accepted by done.
    destruct w as [[ld sm ei et am model uc uf] so cs]; simpl in *. subst so.
    destruct s as [sid tmp mn msgs0]; simpl in *. subst tmp.
    destruct am; unfold_handlers; unfold_monad; simpl.
    + split_services; calls_norm; unfold calls_where; simpl.
      all: split; [done|]; by eexists.
    + rewrite deliver_spec. unfold with_stream; simpl.
      destruct (ending _) eqn:Hend; unfold_handlers; unfold_monad; simpl.
      * destruct (msgs0 !! (length msgs0 - 1)%nat) as [m|]; simpl;
          [destruct (Message.edits m); simpl;
            [|destruct (truthy (Message.question m)); simpl]|].
        all: rewrite ?strict_eq_refl; calls_norm; unfold calls_where; simpl.
        all: split; [done|]; by eexists.
      * calls_norm; unfold calls_where; simpl. split; [done|]; by eexists.
Qed.

(** C2.  If during a send a call to the API service throws, or the
    stream simulator was started and ends with [onError], then the
    handler returns, the loading flag is off (the exchange is idle),
    the partial stream text is empty, [addMessage] was called with
    the fallback text exactly once, and the thread's messages are the
    old ones, the user's message and that one fallback message. *)
Theorem send_failure_recovers message w :
  let w' := (send env message w).2 in
  service_threw (new_calls w w') ∨ simulator_failed env (new_calls w w') →
  (send env message w).1 = Returned tt ∧
  isLoading (ui w') = false ∧
  streamingMessage (ui w') = [] ∧
  calls_where is_fallback (new_calls w w') =
    [addMessage_call fallbackMessage false (PStr (selectedModel (ui w)))] ∧
  ∃ s s1 s',
    currentSession w = Some s ∧ currentSession w' = Some s' ∧
    Session.messages s1 = Session.messages s ++ [newMessage env s message true PNull] ∧
    Session.messages s' =
      Session.messages s1 ++
      [newMessage env s1 fallbackMessage false (PStr (selectedModel (ui w)))].
Proof.
  destruct (decide (blank message)) as [Hb|Hb].
  { rewrite send_rejected by auto. simpl. rewrite new_calls_refl.
    intros [H|H]; [by apply service_threw_nil in H|by apply simulator_failed_nil in H]. }
  destruct (isLoading (ui w)) eqn:Hl.
  { rewrite send_rejected by auto. simpl. rewrite new_calls_refl.
    intros [H|H]; [by apply service_threw_nil in H|by apply simulator_failed_nil in H]. }
  rewrite send_accepted by done.
  destruct w as [[ld sm ei et am model uc uf] [[sid tmp mn msgs]|] cs]; simpl in *.
  - destruct am; unfold_handlers; unfold_monad; simpl.
    + destruct tmp; split_services; calls_norm; intros [H|H]; threw_norm; failed_norm.
      all: (split; [done|]); (split; [done|]); (split; [done|]).
      all: unfold calls_where; simpl.
      all: split; [done|]; eexists _, (Session.mk _ _ _ _), _; simpl.
      all: by repeat split.
    + rewrite deliver_spec. unfold with_stream; simpl.
      destruct (ending _) eqn:Hend; unfold_handlers; unfold_monad; simpl.
      * destruct (msgs !! (length msgs - 1)%nat) as [m|]; simpl;
          [destruct (Message.edits m); simpl;
            [|destruct (truthy (Message.question m)); simpl]|].
        all: calls_norm; intros [H|H]; threw_norm; failed_norm; congruence.
      * calls_norm. intros _.
        (split; [done|]); (split; [done|]); (split; [done|]).
        unfold calls_where; simpl.
        split; [done|]; eexists _, (Session.mk _ _ _ _), _; simpl.
        by repeat split.
  - destruct am; unfold_handlers; unfold_monad; simpl.
    all: calls_norm; intros [H|H]; threw_norm; failed_norm.
Qed.

(** C3.  An accepted send in real API mode in which no service call
    throws calls [createMessage] exactly once, with the user's text as
    the question, fetches the conversation of that thread, and ends
    with the thread's message list equal to [transformConversation]
    of the fetched conversation, whatever the list held before. *)
Theorem send_api_success_replaces_messages message w s :
  ¬ blank message → isLoading (ui w) = false → apiMode (ui w) = true →
  currentSession w = Some s →
  let w' := (send env message w).2 in
  let model := selectedModel (ui w) in
  ¬ service_threw (new_calls w w') →
  ∃ threadId dto msgs s',
    (send env message w).1 = Returned tt ∧
    calls_where is_createMessage (new_calls w w') =
      [createMessage_call threadId message (sendResponse message model) model] ∧
    getConversation env threadId = Some dto ∧
    transformConversation env dto = Some msgs ∧
    last (new_calls w w') =
      Some (mkEvent (updateSessionModel_call threadId model msgs) true) ∧
    currentSession w' = Some s' ∧
    Session.id s' = threadId ∧
    Session.messages s' = msgs ∧
    isLoading (ui w') = false ∧ streamingMessage (ui w') = [].
Proof.
  intros Hb Hl Ha Hs. rewrite send_accepted by done.
  destruct w as [[ld sm ei et am model uc uf] so cs]; simpl in *. subst so am.
  destruct s as [sid tmp mn msgs0].
  unfold_handlers; unfold_monad; simpl.
  destruct tmp; split_services; calls_norm; rewrite service_threw_spec; simpl; intros H.
  all: try done.
  all: eexists _, _, _, _; unfold calls_where; simpl.
  all: by repeat split.
Qed.

(** C4.  An accepted edit in mock mode on a message with a non-empty
    edits list stores that message with one more edit: the new edit's
    question is the submitted text and its answer is the answer of the
    edit that was the latest before. *)
Theorem mock_edit_reuses_answer updatedMessage w s m es e0 :
  truthy (editingMessageId (ui w)) = true → ¬ blank updatedMessage →
  currentSession w = Some s → apiMode (ui w) = false →
  find (editingMessageId (ui w)) (Session.messages s) = Some m →
  Message.edits m = Some es → latestEdit es = Some e0 →
  let w' := (submitEdit env updatedMessage w).2 in
  ∃ i s' m' e,
    (submitEdit env updatedMessage w).1 = Returned tt ∧
    currentSession w' = Some s' ∧
    Session.messages s !! i = Some m ∧
    Session.messages s' !! i = Some m' ∧
    Message.id m' = Message.id m ∧
    Message.edits m' = Some (es ++ [e]) ∧
    length (es ++ [e]) = S (length es) ∧
    Edit.question e = PStr updatedMessage ∧
    Edit.answer e = Edit.answer e0 ∧
    new_calls w w' =
      [mkEvent (updateSessionModel_call (Session.id s) (selectedModel (ui w))
                  (Session.messages s')) true].
Proof.
  intros Hid Hb Hs Ha Hm He H0.
  destruct (find_Some _ _ _ Hm) as (i & Hi & Hl & _).
  rewrite (submitEdit_mock_branching env _ _ s m es e0 i) by done. simpl.
  eexists i, _, (Message.with_edits m _),
    (mockEdit env (render w) (length es) updatedMessage (Edit.answer e0)).
  split; [done|]. split; [done|]. split; [done|].
  split; [apply list_lookup_insert_eq; by eapply lookup_lt_Some|].
  repeat split; [rewrite length_app; simpl; lia|].
  by erewrite new_calls_app.
Qed.

(** C5, as amended.  An accepted edit on a message without an edits
    list returns and closes the editing session.  In mock mode the
    message is replaced in place by a copy whose question is the
    submitted text, still without an edits list; in real API mode no
    call is made and the session is left as it was. *)
Theorem legacy_edit_by_mode updatedMessage w s m :
  truthy (editingMessageId (ui w)) = true → ¬ blank updatedMessage →
  currentSession w = Some s →
  find (editingMessageId (ui w)) (Session.messages s) = Some m →
  Message.edits m = None →
  let w' := (submitEdit env updatedMessage w).2 in
  (submitEdit env updatedMessage w).1 = Returned tt ∧
  (apiMode (ui w) = false →
     ∃ i s' m',
       currentSession w' = Some s' ∧
       Session.messages s !! i = Some m ∧
       Session.messages s' = <[i := m']> (Session.messages s) ∧
       m' = Message.with_question m (PStr updatedMessage) ∧
       Message.edits m' = None) ∧
  (apiMode (ui w) = true →
     currentSession w' = currentSession w ∧ new_calls w w' = []) ∧
  isLoading (ui w') = false ∧
  editingMessageId (ui w') = PNull ∧
  editingMessageText (ui w') = [].
Proof.
  intros Hid Hb Hs Hm He.
  destruct (find_Some _ _ _ Hm) as (i & Hi & Hl & _).
  destruct (apiMode (ui w)) eqn:Ha.
  - rewrite (submitEdit_api_legacy env _ _ s m) by done. simpl.
    rewrite new_calls_same by done. by repeat split.
  - rewrite (submitEdit_mock_legacy env _ _ s m i) by done. simpl.
    repeat split; try done. intros _. by eexists i, _, _.
Qed.

(** C6.  A send whose text is empty or white space only, or that is
    made while the loading flag is on, returns at once and leaves the
    whole world as it was: component state, session and the record of
    calls. *)
Theorem send_blank_or_loading_is_noop message w :
  blank message ∨ isLoading (ui w) = true →
  send env message w = (Returned tt, w) ∧
  (Session.messages <$> currentSession (send env message w).2) =
    (Session.messages <$> currentSession w).
Proof.
  intros H. by rewrite send_rejected.
Qed.

(** C7.  Delivering the chunks [cs] to [onChunk] in order appends
    their concatenation to the partial text; from the cleared buffer
    the partial text is exactly the concatenation, for the chunks
    Hel, lo, and world it is Hello, world; and in an accepted mock
    send the last callback runs in a world whose partial text is the
    concatenation of the chunks of the run. *)
Theorem chunks_concatenate_in_order (cs : list jsstring) (w : world) :
  deliver cs w = (Returned tt, with_stream w (streamingMessage (ui w) ++ concat cs)) ∧
  streamingMessage (ui ((setStreamingMessage [];; deliver cs) w).2) = concat cs ∧
  streamingMessage
    (ui ((setStreamingMessage [];; deliver [lit "Hel"; lit "lo, "; lit "world"]) w).2) =
    lit "Hello, world" ∧
  (∀ message s,
     ¬ blank message → isLoading (ui w) = false → apiMode (ui w) = false →
     currentSession w = Some s →
     let run := sendMessage env message (selectedModel (ui w))
                  (useContext (ui w) && bool_decide (0 < length (uploadedFiles (ui w)))%nat)
                  (Session.id s) in
     chunks run = cs →
     ∃ w1, streamingMessage (ui w1) = concat cs ∧
           send env message w = finish env (render w) message (ending run) w1).
Proof.
  split; [apply deliver_spec|]. split; [|split].
  - apply deliver_cleared.
  - by rewrite deliver_cleared.
  - intros message s Hb Hl Ha Hs run Hcs.
    destruct (send_mock_stream env message w s Hb Hl Ha Hs) as (w1 & H1 & _ & _ & H2).
    exists w1. fold run in H1, H2. by rewrite <- Hcs.
Qed.

(** C8.  Where the mock paths append an edit to the message [m] at
    index [i], with edits [es]: the stored list is the captured list
    with the message at [i] replaced by a copy of [m] whose edits are
    [es] followed by the one new edit, which is then the latest one;
    and on the heap the statements only allocate, so that every
    object that existed before, the original message among them, is
    unchanged and the captured array still reads as the old list,
    while the new array reads as the new list. *)
Theorem append_edit_copy_on_write w s i m es :
  currentSession w = Some s → apiMode (ui w) = false →
  Session.messages s !! i = Some m → Message.edits m = Some es →
  let msgs := Session.messages s in
  let grown (e : Edit.t) (run : nat → nat → Edit.t → Heap.heap → option (nat * Heap.heap))
        (w' : world) : Prop :=
    (∃ s', currentSession w' = Some s' ∧
           Session.messages s' = <[i := Message.with_edits m (es ++ [e])]> msgs) ∧
    last (new_calls w w') =
      Some (mkEvent (updateSessionModel_call (Session.id s) (selectedModel (ui w))
                       (<[i := Message.with_edits m (es ++ [e])]> msgs)) true) ∧
    (∀ h messages, Heap.read_messages h messages = Some msgs →
       ∃ r fresh,
         run messages i e h = Some (r, h ++ fresh) ∧
         (length h ≤ r)%nat ∧
         (∀ l o, h !! l = Some o → (h ++ fresh) !! l = Some o) ∧
         Heap.read_messages (h ++ fresh) messages = Some msgs ∧
         Heap.read_messages (h ++ fresh) r =
           Some (<[i := Message.with_edits m (es ++ [e])]> msgs)) in
  (∀ e, Message.edits (Message.with_edits m (es ++ [e])) = Some (es ++ [e]) ∧
        length (es ++ [e]) = S (length es) ∧
        take (length es) (es ++ [e]) = es ∧
        latestEdit (es ++ [e]) = Some e) ∧
  (∀ updatedMessage e0,
     truthy (editingMessageId (ui w)) = true → ¬ blank updatedMessage →
     findIndex (editingMessageId (ui w)) msgs = Some i →
     latestEdit es = Some e0 →
     grown (mockEdit env (render w) (length es) updatedMessage (Edit.answer e0))
       Heap.submitWithEdit (submitEdit env updatedMessage w).2) ∧
  (∀ message fullResponse,
     ¬ blank message → isLoading (ui w) = false →
     i = (length msgs - 1)%nat →
     ending (sendMessage env message (selectedModel (ui w))
               (useContext (ui w) && bool_decide (0 < length (uploadedFiles (ui w)))%nat)
               (Session.id s)) = Complete fullResponse →
     grown (mockEdit env (render w) (length es) message (PStr fullResponse))
       Heap.completeWithEdit (send env message w).2).
Proof.
  intros Hs Ha Hi He msgs grown. split; [|split].
  - intros e. split; [done|]. split; [rewrite length_app; simpl; lia|].
    split; [by rewrite take_app_length|].
    unfold latestEdit. rewrite length_app. simpl.
    replace (length es + 1 - 1)%nat with (length es + 0)%nat by lia.
    by rewrite lookup_app_r, Nat.add_0_r, Nat.sub_diag by lia.
  - intros updatedMessage e0 Hid Hb Hfi H0. split; [|split].
    + rewrite (submitEdit_mock_branching env _ _ s m es e0 i) by done. simpl.
      by eexists.
    + rewrite (submitEdit_mock_branching env _ _ s m es e0 i) by done.
      erewrite new_calls_app by (simpl; reflexivity). done.
    + intros h messages Hr.
      destruct (HeapFacts.submitWithEdit_run h messages i
                  (mockEdit env (render w) (length es) updatedMessage (Edit.answer e0))
                  msgs m es Hr Hi He) as (r & fresh & Hrun & Hle & Hread).
      exists r, fresh. repeat split; try done.
      * intros l o. apply lookup_app_l_Some.
      * by apply HeapFacts.read_messages_app.
  - intros message fullResponse Hb Hl -> Hend.
    destruct (send_mock_complete_branching env message w s m es fullResponse)
      as (_ & Hstore & Hcall); try done.
    split; [|split].
    + rewrite Hstore. by eexists.
    + exact Hcall.
    + intros h messages Hr.
      destruct (HeapFacts.completeWithEdit_run h messages (length msgs - 1)
                  (mockEdit env (render w) (length es) message (PStr fullResponse))
                  msgs m es Hr Hi He) as (r & fresh & Hrun & Hle & Hread).
      exists r, fresh. repeat split; try done.
      * intros l o. apply lookup_app_l_Some.
      * by apply HeapFacts.read_messages_app.
Qed.

(** C9.  If during a submitted edit a call to the API service throws,
    the handler returns with the session as it was (no message is
    added, none is changed), without any call to [addMessage], with
    the loading flag off, and with the id and the text of the message
    being edited as they were: the editing session is still open. *)
Theorem edit_failure_keeps_editing updatedMessage w :
  let w' := (submitEdit env updatedMessage w).2 in
  service_threw (new_calls w w') →
  (submitEdit env updatedMessage w).1 = Returned tt ∧
  currentSession w' = currentSession w ∧
  calls_where is_addMessage (new_calls w w') = [] ∧
  isLoading (ui w') = false ∧
  editingMessageId (ui w') = editingMessageId (ui w) ∧
  editingMessageText (ui w') = editingMessageText (ui w) ∧
  truthy (editingMessageId (ui w')) = true.
Proof.
  unfold submitEdit, handleSubmitEdit. rewrite not_trim_truthy.
  destruct w as [[ld sm ei et am model uc uf] so cs]. unfold render; simpl.
  destruct (truthy ei) eqn:Hid; simpl;
    [|rewrite new_calls_refl, service_threw_spec; done].
  destruct (bool_decide (blank updatedMessage)); simpl;
    [rewrite new_calls_refl, service_threw_spec; done|].
  destruct so as [s|]; unfold_handlers; unfold_monad; simpl;
    [|rewrite new_calls_refl, service_threw_spec; done].
  destruct (find ei (Session.messages s)) as [m|]; simpl;
    [|rewrite new_calls_refl, service_threw_spec; done].
  destruct am; simpl.
  - destruct (Message.edits m); simpl.
    + split_services; calls_norm; rewrite service_threw_spec; simpl; try done.
      all: intros _; unfold calls_where; simpl; by repeat split.
    + calls_norm. rewrite service_threw_spec. done.
  - split_services; simpl; rewrite ?strict_eq_refl; simpl.
    all: calls_norm; rewrite service_threw_spec; done.
Qed.

(** C10.  An accepted edit in mock mode on a message without an edits
    list changes, in the stored list, only the message at its index,
    and of that message only the question, which becomes the
    submitted text: id, answer, edits, model name and every further
    property are the same, the list has the same length, and every
    other index holds what it held. *)
Theorem mock_legacy_edit_frame updatedMessage w s m :
  truthy (editingMessageId (ui w)) = true → ¬ blank updatedMessage →
  currentSession w = Some s → apiMode (ui w) = false →
  find (editingMessageId (ui w)) (Session.messages s) = Some m →
  Message.edits m = None →
  let w' := (submitEdit env updatedMessage w).2 in
  ∃ i s' m',
    (submitEdit env updatedMessage w).1 = Returned tt ∧
    currentSession w' = Some s' ∧
    Session.messages s !! i = Some m ∧
    Session.messages s' !! i = Some m' ∧
    Message.question m' = PStr updatedMessage ∧
    Message.id m' = Message.id m ∧
    Message.answer m' = Message.answer m ∧
    Message.edits m' = Message.edits m ∧
    Message.model_name m' = Message.model_name m ∧
    Message.rest m' = Message.rest m ∧
    length (Session.messages s') = length (Session.messages s) ∧
    (∀ j, j ≠ i → Session.messages s' !! j = Session.messages s !! j) ∧
    new_calls w w' =
      [mkEvent (updateSessionModel_call (Session.id s) (selectedModel (ui w))
                  (Session.messages s')) true].
Proof.
  intros Hid Hb Hs Ha Hm He.
  destruct (find_Some _ _ _ Hm) as (i & Hi & Hl & _).
  rewrite (submitEdit_mock_legacy env _ _ s m i) by done. simpl.
  eexists i, _, (Message.with_question m _).
  split; [done|]. split; [done|]. split; [done|].
  split; [apply list_lookup_insert_eq; by eapply lookup_lt_Some|].
  repeat split; try done.
  - apply length_insert.
  - intros j Hj. by apply list_lookup_insert_ne.
  - by erewrite new_calls_app.
Qed.
End Claims.

(** ** The claims on the sample inputs *)

Ltac not_blank := apply (bool_decide_eq_false_1 (blank _)); vm_compute; reflexivity.
Ltac threw := apply service_threw_spec; vm_compute; reflexivity.
Ltac not_threw := rewrite service_threw_spec; vm_compute; discriminate.

(** C1 as stated fails: in real API mode, on a temporary thread, with
    the backend down, the send calls [createThread] once, and the
    thread keeps its temporary id and stays temporary. *)
Lemma promotion_fails_when_createThread_throws :
  let w := Examples.w_temporary in
  let w' := (send Examples.env_down (lit "Hi") w).2 in
  ¬ blank (lit "Hi") ∧ isLoading (ui w) = false ∧ apiMode (ui w) = true ∧
  (Session.isTemporary <$> currentSession w) = Some true ∧
  calls_where is_createThread (new_calls w w') = [createThread_call] ∧
  (Session.id <$> currentSession w') = (Session.id <$> currentSession w) ∧
  (Session.isTemporary <$> currentSession w') = Some true.
Proof.
  intros w w'. split; [not_blank|]. by vm_compute.
Qed.

Lemma promotion_when_createThread_returns_witness :
  let w := Examples.w_temporary in
  let w' := (send Examples.env_up (lit "Hi") w).2 in
  (¬ blank (lit "Hi") ∧ isLoading (ui w) = false ∧
   Session.isTemporary <$> currentSession w = Some true ∧ apiMode (ui w) = true ∧
   createThread Examples.env_up = Some {| thread_id := PStr (lit "thread-42") |}) ∧
  calls_where is_createThread (new_calls w w') = [createThread_call] ∧
  ∃ s', currentSession w' = Some s' ∧
        Session.id s' = PStr (lit "thread-42") ∧ Session.isTemporary s' = false.
Proof.
  intros w w'.
  assert (Hb : ¬ blank (lit "Hi")) by not_blank.
  split; [by repeat split|].
  destruct (promotion_when_createThread_returns Examples.env_up (lit "Hi") w _
              eq_refl) as [Htemp _].
  destruct (Htemp eq_refl eq_refl Hb eq_refl) as (Hone & Hret & _).
  destruct (Hret _ eq_refl) as (_ & _ & Hs).
  split; [exact Hone|exact Hs].
Defined.

Lemma send_failure_recovers_witness :
  let api := (send Examples.env_down (lit "Hi") Examples.w_temporary).2 in
  let mock := (send Examples.env_down (lit "Hi") Examples.w_streaming).2 in
  (service_threw (new_calls Examples.w_temporary api) ∧
   simulator_failed Examples.env_down (new_calls Examples.w_streaming mock)) ∧
  (isLoading (ui api) = false ∧ streamingMessage (ui api) = []) ∧
  (isLoading (ui mock) = false ∧ streamingMessage (ui mock) = []).
Proof.
  intros api mock.
  assert (Hapi : service_threw (new_calls Examples.w_temporary api)) by threw.
  assert (Hmock : simulator_failed Examples.env_down (new_calls Examples.w_streaming mock)).
  { exists (lit "Hi"), Examples.model, false, (PStr (lit "temp-1")), true.
    split; [|reflexivity]. vm_compute. repeat constructor. }
  split; [by split|]. split.
  - destruct (send_failure_recovers Examples.env_down (lit "Hi") Examples.w_temporary
                (or_introl Hapi)) as (_ & H1 & H2 & _). by split.
  - destruct (send_failure_recovers Examples.env_down (lit "Hi") Examples.w_streaming
                (or_intror Hmock)) as (_ & H1 & H2 & _). by split.
Defined.

Lemma send_api_success_replaces_messages_witness :
  let w := Examples.w_temporary in
  let w' := (send Examples.env_up (lit "Hi") w).2 in
  (¬ blank (lit "Hi") ∧ isLoading (ui w) = false ∧ apiMode (ui w) = true ∧
   ¬ service_threw (new_calls w w')) ∧
  ∃ threadId dto s',
    getConversation Examples.env_up threadId = Some dto ∧
    currentSession w' = Some s' ∧
    transformConversation Examples.env_up dto = Some (Session.messages s').
Proof.
  intros w w'.
  assert (Hb : ¬ blank (lit "Hi")) by not_blank.
  assert (Hok : ¬ service_threw (new_calls w w')) by not_threw.
  split; [by repeat split|].
  destruct (send_api_success_replaces_messages Examples.env_up (lit "Hi") w _
              Hb eq_refl eq_refl eq_refl Hok)
    as (threadId & dto & msgs & s' & _ & _ & Hget & Htr & _ & Hs & _ & Hm & _).
  exists threadId, dto, s'. by rewrite Hm.
Defined.

Lemma mock_edit_reuses_answer_witness :
  let w := Examples.w_editing false Examples.branching in
  let w' := (submitEdit Examples.env_up (lit "What is 3+3?") w).2 in
  (¬ blank (lit "What is 3+3?") ∧ apiMode (ui w) = false ∧
   latestEdit [Examples.firstEdit] = Some Examples.firstEdit) ∧
  ∃ s' m' e,
    currentSession w' = Some s' ∧ Session.messages s' !! 0%nat = Some m' ∧
    Message.edits m' = Some [Examples.firstEdit; e] ∧
    Edit.question e = PStr (lit "What is 3+3?") ∧
    Edit.answer e = PStr (lit "4").
Proof.
  intros w w'.
  assert (Hb : ¬ blank (lit "What is 3+3?")) by not_blank.
  split; [by repeat split|].
  destruct (mock_edit_reuses_answer Examples.env_up (lit "What is 3+3?") w _
              Examples.branching [Examples.firstEdit] Examples.firstEdit
              eq_refl Hb eq_refl eq_refl eq_refl eq_refl eq_refl)
    as (i & s' & m' & e & _ & Hs & Hi & Hi' & _ & He & _ & Hq & Ha & _).
  assert (i = 0%nat) as -> by (by destruct i as [|[|]]).
  by exists s', m', e.
Defined.

(** C5 as stated fails: in real API mode, an edit of a message without
    an edits list is accepted and returns, and the message still has
    the old question. *)
Lemma legacy_edit_api_mode_no_update :
  let w := Examples.w_editing true Examples.legacy in
  let r := submitEdit Examples.env_up (lit "What is 3+3?") w in
  apiMode (ui w) = true ∧ ¬ blank (lit "What is 3+3?") ∧
  (find (editingMessageId (ui w)) <$> (Session.messages <$> currentSession w)) =
    Some (Some Examples.legacy) ∧
  Message.edits Examples.legacy = None ∧
  r.1 = Returned tt ∧
  (Session.messages <$> currentSession r.2) = Some [Examples.legacy] ∧
  Message.question Examples.legacy = PStr (lit "What is 2+2?") ∧
  Message.question Examples.legacy ≠ PStr (lit "What is 3+3?").
Proof.
  intros w r. split; [done|]. split; [not_blank|]. by vm_compute.
Qed.

Lemma legacy_edit_by_mode_witness :
  let mock := Examples.w_editing false Examples.legacy in
  let api := Examples.w_editing true Examples.legacy in
  ¬ blank (lit "What is 3+3?") ∧
  (Session.messages <$> currentSession (submitEdit Examples.env_up (lit "What is 3+3?") mock).2) =
    Some [Message.with_question Examples.legacy (PStr (lit "What is 3+3?"))] ∧
  (Session.messages <$> currentSession (submitEdit Examples.env_up (lit "What is 3+3?") api).2) =
    Some [Examples.legacy].
Proof.
  intros mock api.
  assert (Hb : ¬ blank (lit "What is 3+3?")) by not_blank.
  split; [exact Hb|]. split.
  - destruct (legacy_edit_by_mode Examples.env_up (lit "What is 3+3?") mock _
                Examples.legacy eq_refl Hb eq_refl eq_refl eq_refl)
      as (_ & Hmock & _).
    destruct (Hmock eq_refl) as (i & s' & m' & Hs & Hi & Hm & -> & _).
    rewrite Hs. simpl. rewrite Hm. by destruct i as [|[|]].
  - destruct (legacy_edit_by_mode Examples.env_up (lit "What is 3+3?") api _
                Examples.legacy eq_refl Hb eq_refl eq_refl eq_refl)
      as (_ & _ & Hapi & _).
    destruct (Hapi eq_refl) as [Hs _]. by rewrite Hs.
Defined.

Lemma send_blank_or_loading_is_noop_witness :
  (blank (lit "   ") ∧
   send Examples.env_up (lit "   ") Examples.w_streaming = (Returned tt, Examples.w_streaming)) ∧
  (isLoading (ui Examples.w_loading) = true ∧
   send Examples.env_up (lit "Hi") Examples.w_loading = (Returned tt, Examples.w_loading)).
Proof.
  assert (Hb : blank (lit "   ")) by (apply (bool_decide_eq_true_1 (blank _)); by vm_compute).
  split; (split; [done|]).
  - apply (send_blank_or_loading_is_noop Examples.env_up (lit "   ") Examples.w_streaming).
    by left.
  - apply (send_blank_or_loading_is_noop Examples.env_up (lit "Hi") Examples.w_loading).
    by right.
Defined.

Lemma chunks_concatenate_in_order_witness :
  let w := Examples.w_streaming in
  let cs := [lit "Hel"; lit "lo, "; lit "world"] in
  (¬ blank (lit "Hi") ∧ isLoading (ui w) = false ∧ apiMode (ui w) = false) ∧
  ∃ w1, streamingMessage (ui w1) = lit "Hello, world" ∧
        send Examples.env_up (lit "Hi") w =
        onComplete Examples.env_up (render w) (lit "Hi") (lit "Hello, world") w1.
Proof.
  intros w cs.
  assert (Hb : ¬ blank (lit "Hi")) by not_blank.
  split; [by repeat split|].
  destruct (chunks_concatenate_in_order Examples.env_up cs w) as (_ & _ & _ & H).
  destruct (H (lit "Hi") _ Hb eq_refl eq_refl eq_refl eq_refl) as (w1 & H1 & H2).
  exists w1. split; [exact H1|exact H2].
Defined.

Lemma append_edit_copy_on_write_witness :
  let w := Examples.w_editing false Examples.branching in
  let e := mockEdit Examples.env_up (render w) 1 (lit "What is 3+3?") (PStr (lit "4")) in
  let grown := [Message.with_edits Examples.branching [Examples.firstEdit; e]] in
  (¬ blank (lit "What is 3+3?") ∧
   Heap.read_messages Examples.heap0 3 = Some [Examples.branching]) ∧
  (Session.messages <$> currentSession (submitEdit Examples.env_up (lit "What is 3+3?") w).2) =
    Some grown ∧
  ∃ r fresh,
    Heap.submitWithEdit 3 0 e Examples.heap0 = Some (r, Examples.heap0 ++ fresh) ∧
    Heap.read_messages (Examples.heap0 ++ fresh) 3 = Some [Examples.branching] ∧
    Heap.read_messages (Examples.heap0 ++ fresh) r = Some grown.
Proof.
  intros w e grown.
  assert (Hb : ¬ blank (lit "What is 3+3?")) by not_blank.
  split; [by split|].
  destruct (append_edit_copy_on_write Examples.env_up w _ 0%nat Examples.branching
              [Examples.firstEdit] eq_refl eq_refl eq_refl eq_refl) as (_ & Hedit & _).
  destruct (Hedit (lit "What is 3+3?") Examples.firstEdit eq_refl Hb eq_refl eq_refl)
    as ((s' & -> & Hs') & _ & Hheap).
  split; [simpl; by rewrite Hs'|].
  destruct (Hheap Examples.heap0 3%nat eq_refl) as (r & fresh & Hrun & _ & _ & Hold & Hnew).
  by exists r, fresh.
Defined.

Lemma edit_failure_keeps_editing_witness :
  let w := Examples.w_editing true Examples.branching in
  let w' := (submitEdit Examples.env_down (lit "What is 3+3?") w).2 in
  service_threw (new_calls w w') ∧
  currentSession w' = currentSession w ∧
  isLoading (ui w') = false ∧
  editingMessageId (ui w') = PStr (lit "m1") ∧
  editingMessageText (ui w') = lit "What is 2+2?".
Proof.
  intros w w'.
  assert (H : service_threw (new_calls w w')) by threw.
  split; [exact H|].
  destruct (edit_failure_keeps_editing Examples.env_down (lit "What is 3+3?") w H)
    as (_ & Hs & _ & Hl & Hid & Ht & _).
  by repeat split.
Defined.

Lemma mock_legacy_edit_frame_witness :
  let w := Examples.w_editing false Examples.legacy in
  let w' := (submitEdit Examples.env_up (lit "What is 3+3?") w).2 in
  (¬ blank (lit "What is 3+3?") ∧ apiMode (ui w) = false ∧
   Message.edits Examples.legacy = None) ∧
  ∃ s' m',
    currentSession w' = Some s' ∧ Session.messages s' !! 0%nat = Some m' ∧
    Message.question m' = PStr (lit "What is 3+3?") ∧
    Message.answer m' = PStr (lit "4") ∧
    Message.id m' = PStr (lit "m1").
Proof.
  intros w w'.
  assert (Hb : ¬ blank (lit "What is 3+3?")) by not_blank.
  split; [by repeat split|].
  destruct (mock_legacy_edit_frame Examples.env_up (lit "What is 3+3?") w _
              Examples.legacy eq_refl Hb eq_refl eq_refl eq_refl eq_refl)
    as (i & s' & m' & _ & Hs & Hi & Hi' & Hq & Hid & Ha & _).
  assert (i = 0%nat) as -> by (by destruct i as [|[|]]).
  exists s', m'. by rewrite Hq, Ha, Hid.
Defined.

(** * Further properties of the component *)

(** ** The exchange handlers on every path *)

Section Exchange.
Context {ConversationDTO : Type} (env : services ConversationDTO).

(** Every accepted send on a session returns with the loading flag off
    and the partial text empty, whatever the services and the
    simulator do. *)
Theorem send_always_settles message w s :
  ¬ blank message → isLoading (ui w) = false → currentSession w = Some s →
  let r := send env message w in
  r.1 = Returned tt ∧ isLoading (ui r.2) = false ∧ streamingMessage (ui r.2) = [].
Proof.
  intros Hb Hl Hs. rewrite send_accepted by done.
  destruct w as [[ld sm ei et am model uc uf] so cs]; simpl in *. subst so.
  destruct s as [sid tmp mn msgs].
  destruct am; unfold_handlers; unfold_monad; simpl.
  - destruct tmp; split_services; done.
  - rewrite deliver_spec. unfold with_stream; simpl.
    destruct (ending _); unfold_handlers; unfold_monad; simpl; [|done].
    destruct (msgs !! (length msgs - 1)%nat) as [m|]; simpl;
      [destruct (Message.edits m); simpl;
        [|destruct (truthy (Message.question m)); simpl]|]; done.
Qed.

(** An accepted send in real API mode ends in exactly one of two ways:
    no service call threw and [updateSessionModel] was called once and
    no fallback was added, or a service call threw and the fallback was
    added once and [updateSessionModel] was not called.  It never
    starts the simulator and never creates an edit. *)
Theorem api_send_replaces_or_falls_back message w s :
  ¬ blank message → isLoading (ui w) = false → apiMode (ui w) = true →
  currentSession w = Some s →
  let evs := new_calls w (send env message w).2 in
  ((¬ service_threw evs ∧
    length (calls_where is_updateSessionModel evs) = 1%nat ∧
    calls_where is_fallback evs = []) ∨
   (service_threw evs ∧
    calls_where is_updateSessionModel evs = [] ∧
    length (calls_where is_fallback evs) = 1%nat)) ∧
  calls_where is_sendMessage evs = [] ∧
  calls_where is_createMessageEdit evs = [].
Proof.
  intros Hb Hl Ha Hs. rewrite send_accepted by done.
  destruct w as [[ld sm ei et am model uc uf] so cs]; simpl in *. subst so am.
  destruct s as [sid tmp mn msgs].
  unfold_handlers; unfold_monad; simpl.
  destruct tmp; split_services; calls_norm; rewrite !service_threw_spec;
    unfold calls_where; simpl.
  all: split; [|done].
  all: first [ left; by repeat split | right; by repeat split ].
Qed.

(** In real API mode the services are called in a fixed order:
    [createThread] (for a temporary thread only), [createMessage],
    [getConversation], [transformConversation], the last three for the
    same thread id; and the first call that throws is the last one. *)
Theorem api_send_service_order message w s :
  ¬ blank message → isLoading (ui w) = false → apiMode (ui w) = true →
  currentSession w = Some s →
  let evs := service_events (new_calls w (send env message w).2) in
  let model := selectedModel (ui w) in
  (∃ tid,
     (ev_call <$> evs) `prefix_of`
       (if Session.isTemporary s then [createThread_call] else []) ++
       [createMessage_call tid message (sendResponse message model) model;
        getConversation_call tid; transformConversation_call]) ∧
  (∀ pre e post, evs = pre ++ e :: post → ev_ok e = false → post = []).
Proof.
  intros Hb Hl Ha Hs. rewrite send_accepted by done.
  destruct w as [[ld sm ei et am model uc uf] so cs]; simpl in *. subst so am.
  destruct s as [sid tmp mn msgs].
  unfold_handlers; unfold_monad; simpl.
  destruct tmp; split_services; calls_norm; unfold service_events; simpl.
  all: split;
    [ first [ exists sid; by eexists
            | eexists; by eexists ]
    | intros pre e post Hevs Hok;
      repeat (destruct pre as [|? pre]; simplify_eq/=; try done) ].
Qed.

(** In mock mode a send calls no service and never converts the
    thread: a temporary thread keeps its id and stays temporary. *)
Theorem mock_send_never_calls_service message w :
  apiMode (ui w) = false →
  let w' := (send env message w).2 in
  calls_where is_service_call (new_calls w w') = [] ∧
  calls_where is_convertTemporarySession (new_calls w w') = [] ∧
  (Session.id <$> currentSession w') = (Session.id <$> currentSession w) ∧
  (Session.isTemporary <$> currentSession w') = (Session.isTemporary <$> currentSession w).
Proof.
  intros Ha.
  destruct (decide (blank message)) as [Hb|Hb];
    [|destruct (isLoading (ui w)) eqn:Hl].
  1, 2: rewrite send_rejected by auto; simpl; by rewrite new_calls_refl.
  rewrite send_accepted by done. rewrite Ha.
  destruct w as [[ld sm ei et am model uc uf] [[sid tmp mn msgs]|] cs]; simpl in *.
  - unfold_handlers; unfold_monad; simpl.
    rewrite deliver_spec. unfold with_stream; simpl.
    destruct (ending _); unfold_handlers; unfold_monad; simpl.
    + destruct (msgs !! (length msgs - 1)%nat) as [m|]; simpl;
        [destruct (Message.edits m); simpl;
          [|destruct (truthy (Message.question m)); simpl]|].
      all: rewrite ?strict_eq_refl; calls_norm; by unfold calls_where.
    + calls_norm. by unfold calls_where.
  - unfold_handlers; unfold_monad; simpl. calls_norm. by unfold calls_where.
Qed.

(** When the stream completes and the last message of the captured
    session has no edits list but a question, that message gets the
    full response as its answer and the selected model as its model
    name; its id, question and further properties, and every other
    message of the captured list, are as they were. *)
Theorem mock_complete_fills_legacy_answer message w s m fullResponse :
  ¬ blank message → isLoading (ui w) = false → apiMode (ui w) = false →
  currentSession w = Some s →
  ending (sendMessage env message (selectedModel (ui w))
            (useContext (ui w) && bool_decide (0 < length (uploadedFiles (ui w)))%nat)
            (Session.id s)) = Complete fullResponse →
  Session.messages s !! (length (Session.messages s) - 1)%nat = Some m →
  Message.edits m = None → truthy (Message.question m) = true →
  let w' := (send env message w).2 in
  let i := (length (Session.messages s) - 1)%nat in
  ∃ s' m',
    currentSession w' = Some s' ∧
    Session.messages s' = <[i := m']> (Session.messages s) ∧
    last (new_calls w w') =
      Some (mkEvent (updateSessionModel_call (Session.id s) (selectedModel (ui w))
                       (Session.messages s')) true) ∧
    Message.answer m' = PStr fullResponse ∧
    Message.model_name m' = PStr (selectedModel (ui w)) ∧
    Message.id m' = Message.id m ∧
    Message.question m' = Message.question m ∧
    Message.edits m' = None ∧
    Message.rest m' = Message.rest m.
Proof.
  intros Hb Hl Ha Hs Hend Hm He Hq. rewrite send_accepted by done. rewrite Ha.
  destruct w as [[ld sm ei et am model uc uf] so cs]; simpl in *. subst so am.
  unfold beginExchange, sendViaMock, optional_id. simpl.
  unfold_monad; simpl. rewrite deliver_spec, Hend. unfold with_stream; simpl.
  unfold onComplete; simpl. rewrite Hm, He, Hq.
  unfold_monad; simpl. rewrite strict_eq_refl. calls_norm.
  eexists _, (Message.with_answer m _ _). by repeat split.
Qed.

(** When the stream completes and the captured session has no message,
    or its last message has neither an edits list nor a truthy
    question, the full response is handed to [addMessage] as an
    assistant message and [updateSessionModel] is not called. *)
Theorem mock_complete_adds_assistant_message message w s fullResponse :
  ¬ blank message → isLoading (ui w) = false → apiMode (ui w) = false →
  currentSession w = Some s →
  let useCtx := useContext (ui w) && bool_decide (0 < length (uploadedFiles (ui w)))%nat in
  ending (sendMessage env message (selectedModel (ui w)) useCtx (Session.id s)) =
    Complete fullResponse →
  (Session.messages s = [] ∨
   ∃ m, Session.messages s !! (length (Session.messages s) - 1)%nat = Some m ∧
        Message.edits m = None ∧ truthy (Message.question m) = false) →
  let w' := (send env message w).2 in
  new_calls w w' =
    [mkEvent (addMessage_call message true PNull) true;
     mkEvent (sendMessage_call message (selectedModel (ui w)) useCtx (Session.id s)) true;
     mkEvent (addMessage_call fullResponse false (PStr (selectedModel (ui w)))) true] ∧
  ∃ s1 s',
    currentSession w' = Some s' ∧
    Session.messages s1 = Session.messages s ++ [newMessage env s message true PNull] ∧
    Session.messages s' =
      Session.messages s1 ++
      [newMessage env s1 fullResponse false (PStr (selectedModel (ui w)))].
Proof.
  intros Hb Hl Ha Hs useCtx Hend Hlast. rewrite send_accepted by done. rewrite Ha.
  destruct w as [[ld sm ei et am model uc uf] so cs]; simpl in *. subst so am.
  unfold beginExchange, sendViaMock, optional_id. simpl.
  unfold_monad; simpl. fold useCtx. rewrite deliver_spec, Hend. unfold with_stream; simpl.
  unfold onComplete; simpl.
  destruct Hlast as [Hnil|(m & Hm & He & Hq)].
  - assert (Session.messages s !! (length (Session.messages s) - 1)%nat = None) as ->
      by (by rewrite Hnil).
    unfold_monad; simpl. calls_norm.
    split; [done|]. eexists (Session.mk _ _ _ _), _. simpl. by repeat split.
  - rewrite Hm, He, Hq. unfold_monad; simpl. calls_norm.
    split; [done|]. eexists (Session.mk _ _ _ _), _. simpl. by repeat split.
Qed.

End Exchange.

(** ** Submitted edits on every path *)

Section Editing.
Context {ConversationDTO : Type} (env : services ConversationDTO).

(** With no message being edited a submitted text is dropped. *)
Lemma submitEdit_not_editing updatedMessage w :
  truthy (editingMessageId (ui w)) = false →
  submitEdit env updatedMessage w = (Returned tt, w).
Proof.
  intros H. unfold submitEdit, handleSubmitEdit. rewrite not_trim_truthy.
  unfold render at 1 2; simpl. by rewrite H.
Qed.

(** An edit is dropped, with the whole world as it was, when no
    message is being edited, when the text is blank, or when the
    current session has no message with the id being edited. *)
Theorem submitEdit_rejected_is_noop updatedMessage w :
  truthy (editingMessageId (ui w)) = false ∨ blank updatedMessage ∨
  (∃ s, currentSession w = Some s ∧
        find (editingMessageId (ui w)) (Session.messages s) = None) →
  submitEdit env updatedMessage w = (Returned tt, w).
Proof.
  unfold submitEdit, handleSubmitEdit. rewrite not_trim_truthy.
  unfold render at 1 2; simpl.
  intros [H|[H|(s & Hs & Hf)]].
  - by rewrite H.
  - rewrite (bool_decide_eq_true_2 _ H). by rewrite orb_true_r.
  - destruct (negb _ || _); [done|].
    unfold session_of, render; simpl. rewrite Hs.
    unfold mbind, M_bind, mret, M_ret. simpl. by rewrite Hf.
Qed.

(** With a message being edited and a text that is not blank, but no
    current session, the handler throws a [TypeError] before it
    changes anything: the [find] of line 224 is outside the [try]. *)
Theorem submitEdit_without_session_throws updatedMessage w :
  truthy (editingMessageId (ui w)) = true → ¬ blank updatedMessage →
  currentSession w = None →
  submitEdit env updatedMessage w = (Thrown TypeError, w).
Proof.
  intros Hid Hb Hs. unfold submitEdit, handleSubmitEdit.
  rewrite not_trim_truthy, (bool_decide_eq_false_2 _ Hb).
  unfold render at 1; simpl. rewrite Hid; simpl.
  unfold session_of, render; simpl. by rewrite Hs.
Qed.

(** An accepted edit returns with the loading flag off, whatever the
    services do, and whether or not an exchange was in flight when it
    was submitted: [handleSubmitEdit] does not test [isLoading]. *)
Theorem accepted_edit_settles updatedMessage w s m :
  truthy (editingMessageId (ui w)) = true → ¬ blank updatedMessage →
  currentSession w = Some s →
  find (editingMessageId (ui w)) (Session.messages s) = Some m →
  let r := submitEdit env updatedMessage w in
  r.1 = Returned tt ∧ isLoading (ui r.2) = false.
Proof.
  intros Hid Hb Hs Hm. rewrite (submitEdit_accepted env _ _ s m) by done.
  destruct w as [[ld sm ei et am model uc uf] so cs]; simpl in *. subst so.
  destruct am; unfold_handlers; unfold_monad; simpl.
  - destruct (Message.edits m); simpl; [|done]. split_services; done.
  - split_services; done.
Qed.

(** An accepted edit in real API mode on a message with an edits list,
    when no service call throws: [createMessageEdit] is called once,
    with the id of the message, the submitted text, the canned answer
    and the selected model; the conversation of the session's id is
    fetched and its transformation replaces the messages; the editing
    session is closed. *)
Theorem api_edit_success updatedMessage w s m es :
  truthy (editingMessageId (ui w)) = true → ¬ blank updatedMessage →
  currentSession w = Some s → apiMode (ui w) = true →
  find (editingMessageId (ui w)) (Session.messages s) = Some m →
  Message.edits m = Some es →
  let w' := (submitEdit env updatedMessage w).2 in
  let model := selectedModel (ui w) in
  ¬ service_threw (new_calls w w') →
  ∃ dto msgs,
    getConversation env (Session.id s) = Some dto ∧
    transformConversation env dto = Some msgs ∧
    new_calls w w' =
      [mkEvent (createMessageEdit_call (Message.id m) updatedMessage
                  (editResponse updatedMessage model) model) true;
       mkEvent (getConversation_call (Session.id s)) true;
       mkEvent transformConversation_call true;
       mkEvent (updateSessionModel_call (Session.id s) model msgs) true] ∧
    currentSession w' =
      Some (Session.mk (Session.id s) (Session.isTemporary s) (PStr model) msgs) ∧
    ui w' = edit_closed (ui w).
Proof.
  intros Hid Hb Hs Ha Hm He. rewrite (submitEdit_accepted env _ _ s m) by done.
  rewrite Ha.
  destruct w as [[ld sm ei et am model uc uf] so cs]; simpl in *. subst so am.
  unfold_handlers; rewrite He; unfold_monad; simpl.
  split_services; calls_norm; rewrite service_threw_spec; simpl; intros H; try done.
  by eexists _, _.
Qed.

(** An accepted edit in mock mode on a message whose edits list is
    empty makes no call and leaves the session and the editing state as
    they were: reading the answer of the missing latest edit throws,
    and the [catch] block only turns the loading flag off. *)
Theorem mock_edit_empty_history updatedMessage w s m :
  truthy (editingMessageId (ui w)) = true → ¬ blank updatedMessage →
  currentSession w = Some s → apiMode (ui w) = false →
  find (editingMessageId (ui w)) (Session.messages s) = Some m →
  Message.edits m = Some [] →
  let r := submitEdit env updatedMessage w in
  r.1 = Returned tt ∧
  new_calls w r.2 = [] ∧
  currentSession r.2 = currentSession w ∧
  isLoading (ui r.2) = false ∧
  editingMessageId (ui r.2) = editingMessageId (ui w) ∧
  editingMessageText (ui r.2) = editingMessageText (ui w).
Proof.
  intros Hid Hb Hs Ha Hm He. rewrite (submitEdit_accepted env _ _ s m) by done.
  rewrite Ha.
  destruct w as [[ld sm ei et am model uc uf] so cs]; simpl in *. subst so am.
  unfold_handlers; rewrite He; unfold_monad; simpl.
  calls_norm. done.
Qed.

(** The calls of a submitted edit. *)
Lemma submitEdit_only_edit_calls updatedMessage w :
  Forall (λ e, is_edit_call (ev_call e) = true)
    (new_calls w (submitEdit env updatedMessage w).2).
Proof.
  unfold submitEdit, handleSubmitEdit. rewrite not_trim_truthy.
  destruct w as [[ld sm ei et am model uc uf] so cs]. unfold render; simpl.
  destruct (truthy ei) eqn:Hid; simpl; [|by rewrite new_calls_refl].
  destruct (bool_decide (blank updatedMessage)); simpl; [by rewrite new_calls_refl|].
  destruct so as [s|]; unfold_handlers; unfold_monad; simpl;
    [|by rewrite new_calls_refl].
  destruct (find ei (Session.messages s)) as [m|]; simpl; [|by rewrite new_calls_refl].
  destruct am; simpl.
  - destruct (Message.edits m); simpl.
    + split_services; calls_norm; by repeat constructor.
    + by calls_norm.
  - split_services; simpl; rewrite ?strict_eq_refl; simpl.
    all: calls_norm; by repeat constructor.
Qed.

(** A submitted edit calls nothing but [createMessageEdit],
    [getConversation], [transformConversation] and
    [updateSessionModel]: it never adds a message and never creates or
    converts a thread.  It leaves the settings, the partial stream
    text, and the id and temporary flag of the session as they were;
    in mock mode it also leaves the number of messages as it was. *)
Theorem submitEdit_touches_only_the_edit updatedMessage w :
  let w' := (submitEdit env updatedMessage w).2 in
  Forall (λ e, is_edit_call (ev_call e) = true) (new_calls w w') ∧
  settings (ui w') = settings (ui w) ∧
  streamingMessage (ui w') = streamingMessage (ui w) ∧
  (Session.id <$> currentSession w') = (Session.id <$> currentSession w) ∧
  (Session.isTemporary <$> currentSession w') = (Session.isTemporary <$> currentSession w) ∧
  (apiMode (ui w) = false →
   (length ∘ Session.messages <$> currentSession w') =
   (length ∘ Session.messages <$> currentSession w)).
Proof.
  unfold submitEdit, handleSubmitEdit. rewrite not_trim_truthy.
  destruct w as [[ld sm ei et am model uc uf] so cs]. unfold render; simpl.
  destruct (truthy ei) eqn:Hid; simpl; [|by rewrite new_calls_refl].
  destruct (bool_decide (blank updatedMessage)); simpl; [by rewrite new_calls_refl|].
  destruct so as [s|]; unfold_handlers; unfold_monad; simpl;
    [|by rewrite new_calls_refl].
  destruct (find ei (Session.messages s)) as [m|]; simpl; [|by rewrite new_calls_refl].
  destruct am; simpl.
  - destruct (Message.edits m); simpl.
    + split_services; calls_norm; repeat split; try done; by repeat constructor.
    + calls_norm. by repeat split.
  - split_services; simpl; rewrite ?strict_eq_refl; simpl.
    all: calls_norm; repeat split; try done; try by repeat constructor.
    all: intros _; simpl; by rewrite length_insert.
Qed.
End Editing.

(** ** Editing sessions *)

Lemma lit_inj s1 s2 : lit s1 = lit s2 → s1 = s2.
Proof.
  unfold lit. intros H.
  assert (Inj (=) (=) (λ a : ascii, N_of_ascii a)) as Hinj.
  { intros a b Hab. by rewrite <- (ascii_N_embedding a), <- (ascii_N_embedding b), Hab. }
  apply (inj (fmap _)) in H.
  by rewrite <- (string_of_list_ascii_of_string s1),
             <- (string_of_list_ascii_of_string s2), H.
Qed.

Lemma num_to_string_inj n1 n2 : num_to_string n1 = num_to_string n2 → n1 = n2.
Proof. unfold num_to_string. intros H. by apply (inj pretty), lit_inj. Qed.

Section Sessions.
Context {ConversationDTO : Type} (env : services ConversationDTO).

(** Replacing the found message by one with the same id does not move
    the index that [findIndex] returns. *)
Lemma findIndex_insert editingId msgs i m m' :
  findIndex editingId msgs = Some i → msgs !! i = Some m →
  Message.id m' = Message.id m →
  findIndex editingId (<[i := m']> msgs) = Some i.
Proof.
  unfold findIndex. intros Hf Hi Hid.
  destruct (list_find _ msgs) as [[j x]|] eqn:H; [|done].
  simpl in Hf. injection Hf as ->.
  apply list_find_Some in H as (Hx & HP & Hlt).
  assert (x = m) as -> by congruence.
  assert (list_find (λ msg, Message.id msg = editingId) (<[i := m']> msgs) = Some (i, m'))
    as ->; [|done].
  apply list_find_Some. split; [|split].
  - apply list_lookup_insert_eq. by eapply lookup_lt_Some.
  - congruence.
  - intros j y Hj Hji. rewrite list_lookup_insert_ne in Hj by lia. by eapply Hlt.
Qed.

(** Two edits of the same message in mock mode.  The first closes the
    editing session, so that a second submission is dropped until the
    message is opened again; then the second one adds a second edit.
    Both new edits carry the answer of the edit that was the latest at
    the start, and their ids differ. *)
Theorem two_mock_edits_compose q1 q2 text w s i m es e0 :
  truthy (editingMessageId (ui w)) = true → ¬ blank q1 → ¬ blank q2 →
  currentSession w = Some s → apiMode (ui w) = false →
  findIndex (editingMessageId (ui w)) (Session.messages s) = Some i →
  Session.messages s !! i = Some m →
  Message.edits m = Some es → latestEdit es = Some e0 →
  let w1 := (submitEdit env q1 w).2 in
  let w2 := (handleEditMessage (editingMessageId (ui w)) text w1).2 in
  let w3 := (submitEdit env q2 w2).2 in
  submitEdit env q2 w1 = (Returned tt, w1) ∧
  ∃ s3 m3 e1 e2,
    currentSession w3 = Some s3 ∧
    Session.messages s3 = <[i := m3]> (Session.messages s) ∧
    Message.edits m3 = Some (es ++ [e1; e2]) ∧
    Edit.question e1 = PStr q1 ∧ Edit.question e2 = PStr q2 ∧
    Edit.answer e1 = Edit.answer e0 ∧ Edit.answer e2 = Edit.answer e0 ∧
    Edit.edit_id e1 ≠ Edit.edit_id e2 ∧
    editingMessageId (ui w3) = PNull.
Proof.
  intros Hid Hb1 Hb2 Hs Ha Hi Hm He H0 w1 w2 w3.
  assert (Hi' : (i < length (Session.messages s))%nat) by (by eapply lookup_lt_Some).
  set (e1 := mockEdit env (render w) (length es) q1 (Edit.answer e0)).
  set (m1 := Message.with_edits m (es ++ [e1])).
  assert (Hw1 : w1 =
    mkWorld (edit_closed (ui w))
      (Some (Session.mk (Session.id s) (Session.isTemporary s)
               (PStr (selectedModel (ui w))) (<[i := m1]> (Session.messages s))))
      (calls w ++
       [mkEvent (updateSessionModel_call (Session.id s) (selectedModel (ui w))
                   (<[i := m1]> (Session.messages s))) true])).
  { unfold w1. by rewrite (submitEdit_mock_branching env _ _ s m es e0 i). }
  split.
  - apply submitEdit_not_editing. by rewrite Hw1.
  - set (s1 := Session.mk (Session.id s) (Session.isTemporary s)
                 (PStr (selectedModel (ui w))) (<[i := m1]> (Session.messages s))).
    assert (Hui2 : ui w2 =
      mkComponent false (streamingMessage (ui w)) (editingMessageId (ui w)) text
        (apiMode (ui w)) (selectedModel (ui w)) (useContext (ui w)) (uploadedFiles (ui w))).
    { unfold w2. by rewrite Hw1. }
    assert (Hs2 : currentSession w2 = Some s1) by (unfold w2; by rewrite Hw1).
    set (e2 := mockEdit env (render w2) (length (es ++ [e1])) q2 (Edit.answer e1)).
    assert (Hw3 : currentSession w3 =
      Some (Session.mk (Session.id s) (Session.isTemporary s)
              (PStr (selectedModel (ui w2)))
              (<[i := Message.with_edits m1 ((es ++ [e1]) ++ [e2])]>
                 (<[i := m1]> (Session.messages s)))) ∧
      editingMessageId (ui w3) = PNull).
    { unfold w3.
      rewrite (submitEdit_mock_branching env q2 w2 s1 m1 (es ++ [e1]) e1 i);
        rewrite ?Hui2; simpl; try done.
      - by apply findIndex_insert with m.
      - by apply list_lookup_insert_eq.
      - unfold latestEdit. rewrite length_app. simpl.
        replace (length es + 1 - 1)%nat with (length es + 0)%nat by lia.
        by rewrite lookup_app_r, Nat.add_0_r, Nat.sub_diag by lia. }
    destruct Hw3 as [Hs3 Hid3].
    eexists _, (Message.with_edits m1 ((es ++ [e1]) ++ [e2])), e1, e2.
    split; [exact Hs3|]. split; [simpl; by rewrite list_insert_insert_eq|].
    split; [simpl; by rewrite <- app_assoc|].
    repeat split; try done.
    simpl. intros [= H]. apply num_to_string_inj in H.
    rewrite length_app in H. simpl in H. lia.
Qed.

(** What the input submits to after a message was opened for editing.
    With a truthy message id the text goes to [handleSubmitEdit], which
    never adds a message.  With a falsy one (undefined, null, the empty
    string, zero) the plain input stays, and a text that is not blank
    is sent as a new message.  After a cancel the plain input is back. *)
Theorem input_follows_the_editing_id messageId questionText text w :
  let w1 := (handleEditMessage messageId questionText w).2 in
  let w0 := (handleCancelEdit w1).2 in
  (truthy messageId = true →
     submitInput env text w1 = submitEdit env text w1 ∧
     calls_where is_addMessage (new_calls w1 (submitInput env text w1).2) = []) ∧
  (truthy messageId = false →
     submitInput env text w1 = send env text w1 ∧
     (¬ blank text → isLoading (ui w) = false →
      ev_call <$> head (new_calls w1 (submitInput env text w1).2) =
        Some (addMessage_call text true PNull))) ∧
  submitInput env text w0 = send env text w0 ∧
  currentSession w0 = currentSession w ∧ calls w0 = calls w ∧
  isLoading (ui w0) = isLoading (ui w) ∧ settings (ui w0) = settings (ui w).
Proof.
  intros w1 w0. split; [|split].
  - intros Hid.
    assert (submitInput env text w1 = submitEdit env text w1) as ->.
    { unfold submitInput, onSendMessage, submitEdit. subst w1.
      destruct w as [[] ? ?]; simpl. by rewrite Hid. }
    split; [done|].
    pose proof (submitEdit_only_edit_calls env text w1) as Hall.
    unfold calls_where. induction Hall as [|e evs He _ IH]; [done|].
    simpl. destruct (ev_call e); try done.
  - intros Hid.
    assert (submitInput env text w1 = send env text w1) as ->.
    { unfold submitInput, onSendMessage, send. subst w1.
      destruct w as [[] ? ?]; simpl. by rewrite Hid. }
    split; [done|]. intros Hb Hl.
    rewrite send_accepted by (try done; subst w1; by destruct w as [[] ? ?]).
    subst w1. destruct w as [[ld sm ei et am model uc uf] [[sid tmp mn msgs]|] cs];
      simpl in *.
    + destruct am; unfold_handlers; unfold_monad; simpl.
      * destruct tmp; split_services; calls_norm; done.
      * rewrite deliver_spec. unfold with_stream; simpl.
        destruct (ending _); unfold_handlers; unfold_monad; simpl.
        -- destruct (msgs !! (length msgs - 1)%nat) as [m|]; simpl;
             [destruct (Message.edits m); simpl;
               [|destruct (truthy (Message.question m)); simpl]|].
           all: rewrite ?strict_eq_refl; calls_norm; done.
        -- calls_norm. done.
    + destruct am; unfold_handlers; unfold_monad; simpl; calls_norm; done.
  - subst w0 w1. destruct w as [[] ? ?]; simpl. repeat split.
Qed.
End Sessions.

(** ** Files *)

Ltac unfold_page :=
  unfold handleFileUpload, handleRemoveFile, fetchModels, setUploadedFiles,
    setIsProcessing, setAvailableModels, callProgress, catching, raise, lift,
    mbind, P_bind, mret, P_ret in *.

(** The loop, when the callback returns at every value it visits. *)
Lemma reportProgress_returns fuel onProgress progress p :
  Forall (λ z, onProgress z = Returned tt) (stepsFrom fuel progress) →
  reportProgress fuel onProgress progress p =
  (Returned tt, with_progress p (stepsFrom fuel progress)).
Proof.
  revert progress p. induction fuel as [|fuel IH]; intros progress p H; simpl in *.
  - unfold with_progress. rewrite app_nil_r. by destruct p.
  - destruct (progress <=? 100)%Z.
    + apply Forall_cons in H as [Hz H].
      unfold mbind, P_bind, callProgress. rewrite Hz, IH by done.
      unfold with_progress. simpl. by rewrite <- app_assoc.
    + unfold with_progress. rewrite app_nil_r. by destruct p.
Qed.

(** The loop, when the callback throws at some value after returning at
    the ones before. *)
Lemma reportProgress_throws fuel onProgress progress p pre z post e :
  stepsFrom fuel progress = pre ++ z :: post →
  Forall (λ y, onProgress y = Returned tt) pre →
  onProgress z = Thrown e →
  reportProgress fuel onProgress progress p = (Thrown e, with_progress p (pre ++ [z])).
Proof.
  revert progress p pre.
  induction fuel as [|fuel IH]; intros progress p pre Hsteps Hpre Hz; simpl in *.
  - by destruct pre.
  - destruct (progress <=? 100)%Z; [|by destruct pre].
    destruct pre as [|y pre]; simplify_eq/=.
    + unfold mbind, P_bind, callProgress. by rewrite Hz.
    + apply Forall_cons in Hpre as [Hy Hpre].
      unfold mbind, P_bind, callProgress. rewrite Hy.
      rewrite (IH _ _ pre) by done.
      unfold with_progress. simpl. by rewrite <- app_assoc.
Qed.

(** A callback returns at every value of a list, or there is a first
    value at which it throws. *)
Lemma first_throw (onProgress : Z → outcome unit) steps :
  Forall (λ z, onProgress z = Returned tt) steps ∨
  ∃ pre z post e,
    steps = pre ++ z :: post ∧
    Forall (λ y, onProgress y = Returned tt) pre ∧ onProgress z = Thrown e.
Proof.
  induction steps as [|z steps IH]; [by left|].
  destruct (onProgress z) as [[]|e] eqn:Hz.
  - destruct IH as [IH|(pre & y & post & e & -> & Hpre & Hy)].
    + left. by constructor.
    + right. exists (z :: pre), y, post, e. split; [done|]. split; [by constructor|done].
  - right. by exists [], z, steps, e.
Qed.

Lemma stepsFrom_past fuel progress : (100 < progress)%Z → stepsFrom fuel progress = [].
Proof.
  intros H. destruct fuel; simpl; [done|]. by rewrite (proj2 (Z.leb_gt _ _) H).
Qed.

Lemma stepsFrom_enough fuel : (11 ≤ fuel)%nat → stepsFrom fuel 0 = progressSteps.
Proof.
  intros H. do 11 (destruct fuel as [|fuel]; [lia|]). simpl.
  by rewrite stepsFrom_past.
Qed.

(** Eleven iterations are all the loop makes: more fuel changes
    nothing. *)
Lemma reportProgress_enough fuel onProgress p :
  (11 ≤ fuel)%nat →
  reportProgress fuel onProgress 0 p = reportProgress 11 onProgress 0 p.
Proof.
  intros H.
  destruct (first_throw onProgress progressSteps)
    as [Hall|(pre & z & post & e & Hsteps & Hpre & Hz)].
  - rewrite !reportProgress_returns; rewrite ?stepsFrom_enough; done.
  - rewrite (reportProgress_throws fuel _ _ _ pre z post e),
            (reportProgress_throws 11 _ _ _ pre z post e);
      rewrite ?stepsFrom_enough; done.
Qed.

(** The handler around the loop. *)
Lemma handleFileUpload_returns clk file onProgress p q :
  reportProgress 11 onProgress 0
    (mkPage (base p) (files p) true (availableModels p) (progressed p)) = (Returned tt, q) →
  handleFileUpload clk file onProgress p =
  (Returned (mockFile clk file),
   mkPage (with_uploaded (base q) (File.id <$> files q ++ [mockFile clk file]))
     (files q ++ [mockFile clk file]) false (availableModels q) (progressed q)).
Proof.
  intros H. unfold handleFileUpload, catching, setIsProcessing.
  unfold mbind at 1 2, P_bind. cbv beta iota. by rewrite H.
Qed.

Lemma handleFileUpload_throws clk file onProgress p q e :
  reportProgress 11 onProgress 0
    (mkPage (base p) (files p) true (availableModels p) (progressed p)) = (Thrown e, q) →
  handleFileUpload clk file onProgress p =
  (Thrown e, mkPage (base q) (files q) false (availableModels q) (progressed q)).
Proof.
  intros H. unfold handleFileUpload, catching, setIsProcessing.
  unfold mbind at 1 2, P_bind. cbv beta iota. by rewrite H.
Qed.

(** The handler, when the callback returns at every step. *)
Lemma handleFileUpload_completes clk file onProgress p :
  Forall (λ z, onProgress z = Returned tt) progressSteps →
  handleFileUpload clk file onProgress p =
  (Returned (mockFile clk file),
   mkPage (with_uploaded (base p) (File.id <$> files p ++ [mockFile clk file]))
     (files p ++ [mockFile clk file]) false (availableModels p)
     (progressed p ++ progressSteps)).
Proof.
  intros H.
  by rewrite (handleFileUpload_returns clk file onProgress p _
                (reportProgress_returns 11 onProgress 0 _ H)).
Qed.

(** The handler, when the callback throws at some step. *)
Lemma handleFileUpload_aborts clk file onProgress p pre z post e :
  progressSteps = pre ++ z :: post →
  Forall (λ y, onProgress y = Returned tt) pre →
  onProgress z = Thrown e →
  handleFileUpload clk file onProgress p =
  (Thrown e,
   mkPage (base p) (files p) false (availableModels p) (progressed p ++ pre ++ [z])).
Proof.
  intros Hsteps Hpre Hz.
  by rewrite (handleFileUpload_throws clk file onProgress p _ e
                (reportProgress_throws 11 onProgress 0 _ pre z post e Hsteps Hpre Hz)).
Qed.

(** An upload whose progress callback returns every time: the callback
    was called with 0, 10, ..., 100 in this order; the new file is
    appended after the files that were there, with the name, size and
    type of the browser file; processing is over; the new file is the
    result. *)
Theorem upload_success clk file onProgress p :
  Forall (λ z, onProgress z = Returned tt) progressSteps →
  let r := handleFileUpload clk file onProgress p in
  let uploaded := mockFile clk file in
  r.1 = Returned uploaded ∧
  files r.2 = files p ++ [uploaded] ∧
  progressed r.2 = progressed p ++ progressSteps ∧
  isProcessing r.2 = false ∧
  File.name uploaded = file_name file ∧
  File.size uploaded = file_size file ∧
  File.type uploaded = file_type file ∧
  uploadedFiles (ui (base r.2)) = File.id <$> (files p ++ [uploaded]) ∧
  availableModels r.2 = availableModels p.
Proof.
  intros H.
  rewrite (handleFileUpload_returns clk file onProgress p _
             (reportProgress_returns 11 onProgress 0 _ H)).
  by repeat split.
Qed.

(** An upload whose progress callback throws: the callback was called
    with the steps up to the one that threw and not again; the files
    and the rest of the world are as they were; processing is over;
    the error of the callback is thrown on. *)
Theorem upload_failure clk file onProgress p pre z post e :
  progressSteps = pre ++ z :: post →
  Forall (λ y, onProgress y = Returned tt) pre →
  onProgress z = Thrown e →
  let r := handleFileUpload clk file onProgress p in
  r.1 = Thrown e ∧
  files r.2 = files p ∧
  base r.2 = base p ∧
  progressed r.2 = progressed p ++ pre ++ [z] ∧
  isProcessing r.2 = false.
Proof.
  intros Hsteps Hpre Hz.
  rewrite (handleFileUpload_throws clk file onProgress p _ e
             (reportProgress_throws 11 onProgress 0 _ pre z post e Hsteps Hpre Hz)).
  by repeat split.
Qed.

(** Whatever the progress callback does, an upload ends with
    processing over, after calls of the callback with an initial part
    of 0, 10, ..., 100; and either it returns the new file, appended to
    the files, or it throws and the files and the rest of the world are
    as they were. *)
Theorem upload_always_ends clk file onProgress p :
  let r := handleFileUpload clk file onProgress p in
  isProcessing r.2 = false ∧
  (∃ steps, progressed r.2 = progressed p ++ steps ∧ steps `prefix_of` progressSteps) ∧
  ((r.1 = Returned (mockFile clk file) ∧ files r.2 = files p ++ [mockFile clk file]) ∨
   (∃ e, r.1 = Thrown e ∧ files r.2 = files p ∧ base r.2 = base p)).
Proof.
  destruct (first_throw onProgress progressSteps)
    as [Hall|(pre & z & post & e & Hsteps & Hpre & Hz)].
  - rewrite (handleFileUpload_completes clk file onProgress p Hall). simpl.
    split; [done|]. split; [by exists progressSteps|by left].
  - rewrite (handleFileUpload_aborts clk file onProgress p pre z post e Hsteps Hpre Hz).
    simpl. split; [done|]. split; [|right; by exists e].
    exists (pre ++ [z]). split; [done|].
    exists post. by rewrite Hsteps, <- app_assoc.
Qed.

(** Removing a file by id returns and keeps exactly the files with
    another id, in their order; when no file has the id nothing
    changes in the list; a second removal of the same id changes
    nothing more; the processing flag, the session and the record of
    calls are not touched. *)
Theorem remove_file_by_id fileId p :
  let r := handleRemoveFile fileId p in
  r.1 = Returned tt ∧
  (∀ f, f ∈ files r.2 ↔ f ∈ files p ∧ File.id f ≠ fileId) ∧
  files r.2 `sublist_of` files p ∧
  (Forall (λ f, File.id f ≠ fileId) (files p) → files r.2 = files p) ∧
  handleRemoveFile fileId r.2 = (Returned tt, r.2) ∧
  isProcessing r.2 = isProcessing p ∧
  currentSession (base r.2) = currentSession (base p) ∧
  calls (base r.2) = calls (base p).
Proof.
  unfold_page. simpl. split; [done|]. split; [|split; [|split; [|split]]].
  - intros f. rewrite list_elem_of_filter. tauto.
  - apply sublist_filter.
  - intros H. induction H as [|f fs Hf _ IH]; [done|].
    rewrite filter_cons_True by done. by rewrite IH.
  - unfold with_uploaded. simpl.
    assert (filter (λ file, File.id file ≠ fileId)
              (filter (λ file, File.id file ≠ fileId) (files p)) =
            filter (λ file, File.id file ≠ fileId) (files p)) as ->; [|done].
    induction (files p) as [|f fs IH]; [done|].
    destruct (decide (File.id f ≠ fileId)) as [Hf|Hf].
    + rewrite !(filter_cons_True (λ file, File.id file ≠ fileId) f _ Hf).
      by rewrite IH.
    + by rewrite (filter_cons_False (λ file, File.id file ≠ fileId) f _ Hf).
  - done.
Qed.

(** Removing the file that an upload returned gives back the list from
    before the upload when no file in it has the new id.  In general
    the removal takes with it every older file with that id: the id is
    made of the clock reading alone. *)
Theorem upload_then_remove clk file onProgress p :
  Forall (λ z, onProgress z = Returned tt) progressSteps →
  let uploaded := mockFile clk file in
  let p1 := (handleFileUpload clk file onProgress p).2 in
  let p2 := (handleRemoveFile (File.id uploaded) p1).2 in
  files p2 = filter (λ f, File.id f ≠ File.id uploaded) (files p) ∧
  (Forall (λ f, File.id f ≠ File.id uploaded) (files p) → files p2 = files p) ∧
  (∀ f, f ∈ files p → File.id f = File.id uploaded → f ∉ files p2).
Proof.
  intros H uploaded p1 p2.
  assert (Hfiles : files (handleFileUpload clk file onProgress p).2 =
                   files p ++ [uploaded])
    by (by rewrite (handleFileUpload_completes clk file onProgress p H)).
  assert (Hp2 : files p2 = filter (λ f, File.id f ≠ File.id uploaded) (files p)).
  { change (files p2) with (filter (λ f, File.id f ≠ File.id uploaded) (files p1)).
    unfold p1. rewrite Hfiles.
    rewrite filter_app, filter_cons_False, filter_nil by (by intros []).
    by rewrite app_nil_r. }
  split; [exact Hp2|]. split.
  - intros Hall. rewrite Hp2. clear Hp2 Hfiles. induction Hall as [|f fs Hf _ IH]; [done|].
    rewrite (filter_cons_True (λ f, File.id f ≠ File.id uploaded) f fs Hf).
    by rewrite IH.
  - intros f _ Hid. rewrite Hp2, list_elem_of_filter. tauto.
Qed.

Section FilesAndExchange.
Context {ConversationDTO : Type} (env : services ConversationDTO).

(** Uploads and removals keep the component record in step with the
    files, whatever their outcome. *)
Lemma synced_upload clk file onProgress p :
  synced p → synced (handleFileUpload clk file onProgress p).2.
Proof.
  intros Hp.
  destruct (first_throw onProgress progressSteps)
    as [Hall|(pre & z & post & e & Hsteps & Hpre & Hz)].
  - by rewrite (handleFileUpload_completes clk file onProgress p Hall).
  - by rewrite (handleFileUpload_aborts clk file onProgress p pre z post e Hsteps Hpre Hz).
Qed.

Lemma synced_remove fileId p : synced (handleRemoveFile fileId p).2.
Proof. by unfold synced. Qed.

(** The context flag that a mock send hands to the simulator is the
    context switch and-ed with there being an uploaded file: after an
    upload that went through it is the switch itself, and after a
    removal it is on only if the switch is on and a file with another
    id is left. *)
Theorem context_flag_follows_files clk file onProgress fileId message p p' s :
  synced p →
  p' = p ∨ p' = (handleFileUpload clk file onProgress p).2 ∨
  p' = (handleRemoveFile fileId p).2 →
  ¬ blank message → isLoading (ui (base p')) = false →
  apiMode (ui (base p')) = false → currentSession (base p') = Some s →
  calls_where is_sendMessage (new_calls (base p') (send env message (base p')).2) =
    [sendMessage_call message (selectedModel (ui (base p')))
       (useContext (ui (base p')) && bool_decide (files p' ≠ []))
       (Session.id s)] ∧
  (p' = (handleFileUpload clk file onProgress p).2 →
   Forall (λ z, onProgress z = Returned tt) progressSteps →
   bool_decide (files p' ≠ []) = true) ∧
  (p' = (handleRemoveFile fileId p).2 →
   bool_decide (files p' ≠ []) =
   bool_decide (Exists (λ f, File.id f ≠ fileId) (files p))).
Proof.
  intros Hp Hp' Hb Hl Ha Hs.
  assert (Hsync : synced p').
  { destruct Hp' as [->|[->| ->]];
      [done|by apply synced_upload|apply synced_remove]. }
  split; [|split].
  - rewrite send_accepted by done. rewrite Ha.
    unfold synced in Hsync.
    destruct (base p') as [[ld sm ei et am model uc uf] so cs]; simpl in *.
    subst so uf.
    unfold_handlers; unfold_monad; simpl. rewrite deliver_spec.
    unfold with_stream; simpl.
    assert (bool_decide (0 < length (File.id <$> files p'))%nat =
            bool_decide (files p' ≠ [])) as ->.
    { apply bool_decide_ext. rewrite length_fmap. destruct (files p'); simpl; [|split; [done|lia]].
      split; [lia|done]. }
    destruct (ending _); unfold_handlers; unfold_monad; simpl.
    + destruct (Session.messages s !! (length (Session.messages s) - 1)%nat) as [m|];
        simpl; [destruct (Message.edits m); simpl;
                 [|destruct (truthy (Message.question m)); simpl]|].
      all: rewrite ?strict_eq_refl; calls_norm; by unfold calls_where.
    + calls_norm. by unfold calls_where.
  - intros -> Hall. rewrite (handleFileUpload_completes clk file onProgress p Hall).
    simpl. apply bool_decide_eq_true_2. by destruct (files p).
  - intros ->. apply bool_decide_ext. unfold_page. simpl.
    rewrite Exists_exists. split.
    + intros Hne. destruct (filter _ (files p)) as [|f fs] eqn:Hf; [done|].
      assert (f ∈ filter (λ file, File.id file ≠ fileId) (files p)) as Hin
        by (rewrite Hf; by left).
      apply list_elem_of_filter in Hin as [? ?]. by exists f.
    + intros (f & Hin & Hid) Hnil.
      assert (f ∈ filter (λ file, File.id file ≠ fileId) (files p)) as Hin'
        by (by apply list_elem_of_filter).
      rewrite Hnil in Hin'. by apply elem_of_nil in Hin'.
Qed.
End FilesAndExchange.

(** ** Models *)


(** ** The further properties on the sample inputs *)

Lemma send_always_settles_witness :
  let r := send Examples.env_down (lit "Hi") Examples.w_temporary in
  (¬ blank (lit "Hi") ∧ isLoading (ui Examples.w_temporary) = false) ∧
  r.1 = Returned tt ∧ isLoading (ui r.2) = false ∧ streamingMessage (ui r.2) = [].
Proof.
  intros r. assert (Hb : ¬ blank (lit "Hi")) by not_blank.
  split; [by split|].
  apply (send_always_settles Examples.env_down (lit "Hi") Examples.w_temporary _
           Hb eq_refl eq_refl).
Defined.

Lemma api_send_replaces_or_falls_back_witness :
  let up := new_calls Examples.w_temporary
              (send Examples.env_up (lit "Hi") Examples.w_temporary).2 in
  let down := new_calls Examples.w_temporary
                (send Examples.env_down (lit "Hi") Examples.w_temporary).2 in
  ¬ blank (lit "Hi") ∧
  (¬ service_threw up ∧ service_threw down) ∧
  calls_where is_sendMessage up = [] ∧ calls_where is_sendMessage down = [].
Proof.
  intros up down. assert (Hb : ¬ blank (lit "Hi")) by not_blank.
  split; [exact Hb|]. split; [split; [not_threw|threw]|].
  destruct (api_send_replaces_or_falls_back Examples.env_up (lit "Hi")
              Examples.w_temporary _ Hb eq_refl eq_refl eq_refl) as (_ & Hup & _).
  destruct (api_send_replaces_or_falls_back Examples.env_down (lit "Hi")
              Examples.w_temporary _ Hb eq_refl eq_refl eq_refl) as (_ & Hdown & _).
  split; [exact Hup|exact Hdown].
Defined.

Lemma api_send_service_order_witness :
  let evs := service_events
               (new_calls Examples.w_temporary
                  (send Examples.env_down (lit "Hi") Examples.w_temporary).2) in
  ¬ blank (lit "Hi") ∧
  ∀ pre e post, evs = pre ++ e :: post → ev_ok e = false → post = [].
Proof.
  intros evs. assert (Hb : ¬ blank (lit "Hi")) by not_blank.
  split; [exact Hb|].
  apply (api_send_service_order Examples.env_down (lit "Hi") Examples.w_temporary _
           Hb eq_refl eq_refl eq_refl).
Defined.

Lemma mock_send_never_calls_service_witness :
  let w' := (send Examples.env_up (lit "Hi") Examples.w_streaming).2 in
  apiMode (ui Examples.w_streaming) = false ∧
  calls_where is_service_call (new_calls Examples.w_streaming w') = [] ∧
  (Session.isTemporary <$> currentSession w') = Some true.
Proof.
  intros w'. split; [done|].
  destruct (mock_send_never_calls_service Examples.env_up (lit "Hi")
              Examples.w_streaming eq_refl) as (H1 & _ & _ & H2).
  split; [exact H1|exact H2].
Defined.

Lemma mock_complete_fills_legacy_answer_witness :
  let w := Samples.w_thread Examples.legacy in
  let w' := (send Examples.env_up (lit "Again") w).2 in
  (¬ blank (lit "Again") ∧ Message.edits Examples.legacy = None ∧
   truthy (Message.question Examples.legacy) = true) ∧
  ∃ s' m',
    currentSession w' = Some s' ∧ Session.messages s' = [m'] ∧
    Message.answer m' = PStr (lit "Hello, world") ∧
    Message.question m' = PStr (lit "What is 2+2?").
Proof.
  intros w w'. assert (Hb : ¬ blank (lit "Again")) by not_blank.
  split; [by repeat split|].
  destruct (mock_complete_fills_legacy_answer Examples.env_up (lit "Again") w _
              Examples.legacy (lit "Hello, world") Hb eq_refl eq_refl eq_refl
              eq_refl eq_refl eq_refl eq_refl)
    as (s' & m' & Hs & Hm & _ & Ha & _ & _ & Hq & _).
  exists s', m'. by rewrite Hq.
Defined.

Lemma mock_complete_adds_assistant_message_witness :
  let w := Examples.w_streaming in
  let w' := (send Examples.env_up (lit "Hi") w).2 in
  ¬ blank (lit "Hi") ∧
  ev_call <$> last (new_calls w w') =
    Some (addMessage_call (lit "Hello, world") false (PStr Examples.model)).
Proof.
  intros w w'. assert (Hb : ¬ blank (lit "Hi")) by not_blank.
  split; [exact Hb|].
  destruct (mock_complete_adds_assistant_message Examples.env_up (lit "Hi") w _
              (lit "Hello, world") Hb eq_refl eq_refl eq_refl eq_refl (or_introl eq_refl))
    as [Hcalls _].
  unfold w'. by rewrite Hcalls.
Defined.

Lemma submitEdit_rejected_is_noop_witness :
  let w := Examples.w_editing false Examples.branching in
  blank (lit "  ") ∧ submitEdit Examples.env_up (lit "  ") w = (Returned tt, w).
Proof.
  intros w.
  assert (Hb : blank (lit "  ")) by (apply (bool_decide_eq_true_1 (blank _)); by vm_compute).
  split; [exact Hb|].
  apply (submitEdit_rejected_is_noop Examples.env_up (lit "  ") w). right. by left.
Defined.

Lemma submitEdit_without_session_throws_witness :
  let w := Samples.w_editing_nowhere in
  ¬ blank (lit "What is 3+3?") ∧
  submitEdit Examples.env_up (lit "What is 3+3?") w = (Thrown TypeError, w).
Proof.
  intros w. assert (Hb : ¬ blank (lit "What is 3+3?")) by not_blank.
  split; [exact Hb|].
  apply (submitEdit_without_session_throws Examples.env_up (lit "What is 3+3?") w
           eq_refl Hb eq_refl).
Defined.

Lemma accepted_edit_settles_witness :
  let w := Samples.w_editing_in_flight in
  let r := submitEdit Examples.env_up (lit "What is 3+3?") w in
  (¬ blank (lit "What is 3+3?") ∧ isLoading (ui w) = true) ∧
  r.1 = Returned tt ∧ isLoading (ui r.2) = false.
Proof.
  intros w r. assert (Hb : ¬ blank (lit "What is 3+3?")) by not_blank.
  split; [by split|].
  apply (accepted_edit_settles Examples.env_up (lit "What is 3+3?") w _
           Examples.branching eq_refl Hb eq_refl eq_refl).
Defined.

Lemma api_edit_success_witness :
  let w := Examples.w_editing true Examples.branching in
  let w' := (submitEdit Examples.env_up (lit "What is 3+3?") w).2 in
  (¬ blank (lit "What is 3+3?") ∧ ¬ service_threw (new_calls w w')) ∧
  ui w' = edit_closed (ui w) ∧
  (length (new_calls w w') = 4)%nat.
Proof.
  intros w w'. assert (Hb : ¬ blank (lit "What is 3+3?")) by not_blank.
  assert (Hok : ¬ service_threw (new_calls w w')) by not_threw.
  split; [by split|].
  destruct (api_edit_success Examples.env_up (lit "What is 3+3?") w _
              Examples.branching [Examples.firstEdit] eq_refl Hb eq_refl eq_refl
              eq_refl eq_refl Hok) as (dto & msgs & _ & _ & Hcalls & _ & Hui).
  split; [exact Hui|]. unfold w'. by rewrite Hcalls.
Defined.

Lemma mock_edit_empty_history_witness :
  let w := Examples.w_editing false Samples.hollow in
  let r := submitEdit Examples.env_up (lit "What is 3+3?") w in
  (¬ blank (lit "What is 3+3?") ∧ Message.edits Samples.hollow = Some []) ∧
  new_calls w r.2 = [] ∧ editingMessageId (ui r.2) = PStr (lit "m1").
Proof.
  intros w r. assert (Hb : ¬ blank (lit "What is 3+3?")) by not_blank.
  split; [by split|].
  destruct (mock_edit_empty_history Examples.env_up (lit "What is 3+3?") w _
              Samples.hollow eq_refl Hb eq_refl eq_refl eq_refl eq_refl)
    as (_ & Hcalls & _ & _ & Hid & _).
  split; [exact Hcalls|exact Hid].
Defined.

Lemma submitEdit_touches_only_the_edit_witness :
  let w := Examples.w_editing false Examples.branching in
  let w' := (submitEdit Examples.env_up (lit "What is 3+3?") w).2 in
  apiMode (ui w) = false ∧
  (length ∘ Session.messages <$> currentSession w') = Some 1%nat.
Proof.
  intros w w'. split; [done|].
  destruct (submitEdit_touches_only_the_edit Examples.env_up (lit "What is 3+3?") w)
    as (_ & _ & _ & _ & _ & Hlen).
  exact (Hlen eq_refl).
Defined.

Lemma two_mock_edits_compose_witness :
  let w := Examples.w_editing false Examples.branching in
  let w1 := (submitEdit Examples.env_up (lit "What is 3+3?") w).2 in
  let w2 := (handleEditMessage (PStr (lit "m1")) (lit "What is 3+3?") w1).2 in
  let w3 := (submitEdit Examples.env_up (lit "What is 4+4?") w2).2 in
  (¬ blank (lit "What is 3+3?") ∧ ¬ blank (lit "What is 4+4?")) ∧
  ∃ s3 m3 e1 e2,
    currentSession w3 = Some s3 ∧ Session.messages s3 = [m3] ∧
    Message.edits m3 = Some [Examples.firstEdit; e1; e2] ∧
    Edit.answer e1 = PStr (lit "4") ∧ Edit.answer e2 = PStr (lit "4").
Proof.
  intros w w1 w2 w3.
  assert (Hb1 : ¬ blank (lit "What is 3+3?")) by not_blank.
  assert (Hb2 : ¬ blank (lit "What is 4+4?")) by not_blank.
  split; [by split|].
  destruct (two_mock_edits_compose Examples.env_up (lit "What is 3+3?")
              (lit "What is 4+4?") (lit "What is 3+3?") w _ 0%nat Examples.branching
              [Examples.firstEdit] Examples.firstEdit
              eq_refl Hb1 Hb2 eq_refl eq_refl eq_refl eq_refl eq_refl eq_refl)
    as (_ & s3 & m3 & e1 & e2 & Hs & Hm & He & _ & _ & Ha1 & Ha2 & _).
  by exists s3, m3, e1, e2.
Defined.

Lemma input_follows_the_editing_id_witness :
  let w := Examples.w_streaming in
  let w1 := (handleEditMessage (PStr []) (lit "draft") w).2 in
  (truthy (PStr []) = false ∧ ¬ blank (lit "Hi")) ∧
  ev_call <$> head (new_calls w1 (submitInput Examples.env_up (lit "Hi") w1).2) =
    Some (addMessage_call (lit "Hi") true PNull).
Proof.
  intros w w1. assert (Hb : ¬ blank (lit "Hi")) by not_blank.
  split; [by split|].
  destruct (input_follows_the_editing_id Examples.env_up (PStr []) (lit "draft")
              (lit "Hi") w) as (_ & Hfalsy & _).
  destruct (Hfalsy eq_refl) as [_ Hhead]. exact (Hhead Hb eq_refl).
Defined.

Lemma upload_success_witness :
  let r := handleFileUpload Samples.clk Samples.report Samples.quiet Samples.page0 in
  Forall (λ z, Samples.quiet z = Returned tt) progressSteps ∧
  files r.2 = [mockFile Samples.clk Samples.report] ∧
  progressed r.2 = progressSteps ∧ isProcessing r.2 = false.
Proof.
  intros r.
  assert (H : Forall (λ z, Samples.quiet z = Returned tt) progressSteps)
    by (by repeat constructor).
  split; [exact H|].
  destruct (upload_success Samples.clk Samples.report Samples.quiet Samples.page0 H)
    as (_ & Hf & Hp & Hi & _).
  split; [exact Hf|]. split; [exact Hp|exact Hi].
Defined.

Lemma upload_failure_witness :
  let r := handleFileUpload Samples.clk Samples.report Samples.failing_at_30 Samples.page0 in
  Samples.failing_at_30 30 = Thrown ServiceError ∧
  r.1 = Thrown ServiceError ∧ files r.2 = [] ∧
  progressed r.2 = [0; 10; 20; 30]%Z ∧ isProcessing r.2 = false.
Proof.
  intros r. split; [done|].
  destruct (upload_failure Samples.clk Samples.report Samples.failing_at_30 Samples.page0
              [0; 10; 20]%Z 30%Z [40; 50; 60; 70; 80; 90; 100]%Z ServiceError
              eq_refl ltac:(by repeat constructor) eq_refl)
    as (Ho & Hf & _ & Hp & Hi).
  split; [exact Ho|]. split; [exact Hf|]. split; [exact Hp|exact Hi].
Defined.

Lemma remove_file_by_id_witness :
  let p := (handleFileUpload Samples.clk Samples.report Samples.quiet Samples.page0).2 in
  Forall (λ f, File.id f ≠ PStr (lit "other")) (files p) ∧
  files (handleRemoveFile (PStr (lit "other")) p).2 = files p.
Proof.
  intros p.
  assert (H : Forall (λ f, File.id f ≠ PStr (lit "other")) (files p))
    by (by repeat constructor).
  split; [exact H|].
  destruct (remove_file_by_id (PStr (lit "other")) p) as (_ & _ & _ & Hsame & _).
  exact (Hsame H).
Defined.

Lemma upload_then_remove_witness :
  let uploaded := mockFile Samples.clk Samples.report in
  let p1 := (handleFileUpload Samples.clk Samples.report Samples.quiet Samples.page0).2 in
  let p2 := (handleRemoveFile (File.id uploaded) p1).2 in
  Forall (λ z, Samples.quiet z = Returned tt) progressSteps ∧
  files p2 = files Samples.page0.
Proof.
  intros uploaded p1 p2.
  assert (H : Forall (λ z, Samples.quiet z = Returned tt) progressSteps)
    by (by repeat constructor).
  split; [exact H|].
  destruct (upload_then_remove Samples.clk Samples.report Samples.quiet Samples.page0 H)
    as (_ & Hback & _).
  apply Hback. constructor.
Defined.

Lemma context_flag_follows_files_witness :
  let p' := (handleFileUpload Samples.clk Samples.report Samples.quiet Samples.page0).2 in
  (synced Samples.page0 ∧ ¬ blank (lit "Hi")) ∧
  calls_where is_sendMessage
    (new_calls (base p') (send Examples.env_up (lit "Hi") (base p')).2) =
    [sendMessage_call (lit "Hi") Examples.model true (PStr (lit "temp-1"))].
Proof.
  intros p'. assert (Hb : ¬ blank (lit "Hi")) by not_blank.
  split; [by split|].
  assert (Hl : isLoading (ui (base p')) = false) by (vm_compute; reflexivity).
  assert (Ha : apiMode (ui (base p')) = false) by (vm_compute; reflexivity).
  assert (Hs : currentSession (base p') =
               Some (Session.mk (PStr (lit "temp-1")) true PNull []))
    by (vm_compute; reflexivity).
  destruct (context_flag_follows_files Examples.env_up Samples.clk Samples.report
              Samples.quiet PNull (lit "Hi") Samples.page0 p' _
              eq_refl (or_intror (or_introl eq_refl)) Hb Hl Ha Hs)
    as (Hcall & _).
  rewrite Hcall. vm_compute. reflexivity.
Defined.
